(** * Bittrex exchange adapter: candle normalisation, volume window,
      all-in amounts and live order execution

    A shallow embedding of [exchanges/bittrex/bittrexclient.py] and the
    properties of its methods.  Python integers are [Z], Python floats are
    the kernel's binary64 [float], strings are [string], dictionaries are
    [gmap]s, exceptions are the [Raise] outcomes of the [result] monad.
    Console output ([print], [colored]) has no effect on any returned value
    or on any state and is left out. *)

From Stdlib Require Import ZArith List String Ascii Bool Lia Floats Sorted.
From stdpp Require Import functions gmap strings list.

Local Open Scope Z_scope.

(** ** Python builtins used by the adapter *)

Module Py.

(** The exceptions the modelled code can raise. *)
Inductive exn : Type :=
| ValueError
| IndexError.

(** Outcome of a call that either returns a value or raises. *)
Inductive result (A : Type) : Type :=
| Ok (a : A)
| Raise (e : exn).
Global Arguments Ok {A} a.
Global Arguments Raise {A} e.

Global Instance result_ret : MRet result := fun A a => Ok a.
Global Instance result_bind : MBind result :=
  fun A B f r => match r with Ok a => f a | Raise e => Raise e end.
Global Instance result_fmap : FMap result :=
  fun A B f r => match r with Ok a => Ok (f a) | Raise e => Raise e end.

(** [len(range(lo, hi, step))] for a positive [step], as CPython computes
    it: [0] when [lo >= hi], else [(hi - lo - 1) // step + 1]. *)
Definition range_length (lo hi step : Z) : Z :=
  if lo <? hi then (hi - lo - 1) / step + 1 else 0.

(** [range(start, stop, step)]: [ValueError] on a zero step; the items are
    [start + k * step] for [k] below the length. *)
Definition range (start stop step : Z) : result (list Z) :=
  if step =? 0 then Raise ValueError
  else
    let n := if 0 <? step then range_length start stop step
             else range_length stop start (- step) in
    Ok ((fun k => start + Z.of_nat k * step) <$> seq 0 (Z.to_nat n)).

(** [s.replace(old, new)] for one-character [old] and [new]. *)
Fixpoint str_replace (old new : ascii) (s : string) : string :=
  match s with
  | EmptyString => EmptyString
  | String c rest =>
      String (if Ascii.eqb c old then new else c) (str_replace old new rest)
  end.

(** [s.split(sep)] for a one-character separator. *)
Fixpoint str_split (sep : ascii) (s : string) : list string :=
  match s with
  | EmptyString => [EmptyString]
  | String c rest =>
      if Ascii.eqb c sep then EmptyString :: str_split sep rest
      else match str_split sep rest with
           | [] => [String c EmptyString]
           | w :: ws => String c w :: ws
           end
  end.

(** [s.split(sep, 1)]: at most one split, at the first separator. *)
Fixpoint str_split1 (sep : ascii) (s : string) : list string :=
  match s with
  | EmptyString => [EmptyString]
  | String c rest =>
      if Ascii.eqb c sep then [EmptyString; rest]
      else match str_split1 sep rest with
           | [] => [String c EmptyString]
           | w :: ws => String c w :: ws
           end
  end.

(** [l[-1]]: the last item, [IndexError] on an empty list. *)
Definition last_item {A} (l : list A) : result A :=
  match last l with
  | Some x => Ok x
  | None => Raise IndexError
  end.

(** [l.remove(x)]: drops the first occurrence, [ValueError] when absent. *)
Fixpoint list_remove `{EqDecision A} (x : A) (l : list A) : result (list A) :=
  match l with
  | [] => Raise ValueError
  | y :: l' =>
      if decide (x = y) then Ok l'
      else l'' ← list_remove x l'; Ok (y :: l'')
  end.

End Py.
Import Py.

(** ** Records exchanged with the endpoint *)

(** One item of [get_ticks(...)['result']]. *)
Record Tick : Type := {
  tk_T : string;
  tk_H : float;
  tk_L : float;
  tk_O : float;
  tk_C : float;
  tk_V : float;
  tk_BV : float
}.

(** The dictionary [raw_ticker] built at lines 67-75; a candle of the result
    has the same keys. *)
Record raw_ticker : Type := {
  high : float;
  low : float;
  open : float;
  close : float;
  volume : float;
  quoteVolume : float;
  date : Z;
  weightedAverage : float
}.

(** [item = items[-1].copy(); item['date'] = ticker_epoch]. *)
Definition set_date (item : raw_ticker) (ticker_epoch : Z) : raw_ticker :=
  {| high := high item; low := low item; open := open item;
     close := close item; volume := volume item;
     quoteVolume := quoteVolume item; date := ticker_epoch;
     weightedAverage := weightedAverage item |}.

(** What [return_candles] hands back: [dict()] on an unavailable feed, the
    list [out_tickers] otherwise. *)
Inductive candles : Type :=
| EmptyDict
| OutTickers (out_tickers : list raw_ticker).

(** [self.pair_delimiter], set to ['-'] by [__init__]. *)
Definition pair_delimiter : ascii := "-"%char.

(** ** [return_candles] *)

Section ReturnCandles.

(** [int(time.mktime(time.strptime(s, '%Y-%m-%dT%H:%M:%S')))]: the standard
    library's parser, in the time zone of the process. *)
Variable mktime_strptime : string -> result Z.

(** [self.bittrex.get_ticks(market, interval)['result']]; [None] when the
    exchange has no ticks. *)
Variable get_ticks : string -> string -> option (list Tick).

Definition make_raw_ticker (ticker : Tick) (epoch : Z) : raw_ticker :=
  {| high := tk_H ticker; low := tk_L ticker; open := tk_O ticker;
     close := tk_C ticker; volume := tk_V ticker;
     quoteVolume := tk_BV ticker; date := epoch;
     weightedAverage := 0%float |}.

(** The parsing loop, lines 57-77, on the rest of [tickers], with the
    current values of [got_min_epoch_ticker] and [raw_tickers]. *)
Fixpoint parse_tickers (epoch_start : Z) (tickers : list Tick)
    (got_min_epoch_ticker : bool) (raw_tickers : list raw_ticker)
    : result (bool * list raw_ticker) :=
  match tickers with
  | [] => Ok (got_min_epoch_ticker, raw_tickers)
  | ticker :: rest =>
      epoch ← mktime_strptime (tk_T ticker);
      let got := if epoch <=? epoch_start then true
                 else got_min_epoch_ticker in
      if epoch <? epoch_start - 6 * 3600 then
        parse_tickers epoch_start rest got raw_tickers
      else
        parse_tickers epoch_start rest got
          (raw_tickers ++ [make_raw_ticker ticker epoch])
  end.

(** The interpolation loop, lines 83-91, on the rest of the grid. *)
Fixpoint interpolate (raw_tickers : list raw_ticker) (grid : list Z)
    (out_tickers : list raw_ticker) : result (list raw_ticker) :=
  match grid with
  | [] => Ok out_tickers
  | ticker_epoch :: rest =>
      let items :=
        List.filter (fun element => date element <=? ticker_epoch)
          raw_tickers in
      if Z.of_nat (length items) <? 0 then
        interpolate raw_tickers rest out_tickers
      else
        item ← last_item items;
        interpolate raw_tickers rest
          (out_tickers ++ [set_date item ticker_epoch])
  end.

Definition return_candles (currency_pair : string)
    (epoch_start epoch_end period : Z) : result candles :=
  let currency_pair := str_replace "_" pair_delimiter currency_pair in
  match get_ticks currency_pair "fiveMin" with
  | None => Ok EmptyDict
  | Some tickers =>
      '(got_min_epoch_ticker, raw_tickers) ←
        parse_tickers epoch_start tickers false [];
      grid ← range epoch_start epoch_end period;
      out_tickers ← interpolate raw_tickers grid [];
      Ok (OutTickers out_tickers)
  end.

End ReturnCandles.

(** ** [get_volume_from_history] *)

(** One item of [get_market_history(...)['result']]. *)
Record TradeRecord : Type := {
  TimeStamp : string;
  Quantity : float
}.

Section VolumeFromHistory.

(** [datetime.strptime(s, '%Y-%m-%dT%H:%M:%S').replace(tzinfo=utc)
    .timestamp()]: whole seconds since the epoch. *)
Variable strptime_utc : string -> result Z.

(** Lines 121-123: the epoch of one record; the fraction of a second is
    cut off before parsing. *)
Definition item_epoch (item : TradeRecord) : result Z :=
  match str_split1 "." (TimeStamp item) with
  | [] => Raise IndexError
  | time_string :: _ => strptime_utc time_string
  end.

(** The loop of lines 120-126 on the rest of [history]. *)
Fixpoint volume_loop (epoch_candle_start : Z) (history : list TradeRecord)
    (volume : float) : result float :=
  match history with
  | [] => Ok volume
  | item :: rest =>
      epoch ← item_epoch item;
      if epoch_candle_start <=? epoch then
        volume_loop epoch_candle_start rest (volume + Quantity item)%float
      else
        volume_loop epoch_candle_start rest volume
  end.

(** [epoch_now] is the reading [int(time.time())] of line 117. *)
Definition get_volume_from_history (epoch_now : Z)
    (history : list TradeRecord) (candle_size : Z) : result float :=
  let epoch_candle_start := epoch_now - candle_size * 60 in
  volume_loop epoch_candle_start history 0%float.

End VolumeFromHistory.

(** ** The client and the trade actions *)

(** The attributes of [BittrexClient] set by [__init__] that the methods
    read. *)
Record BittrexClient : Type := {
  transaction_fee : float;
  verbosity : Z
}.

(** Modelled from the spec: [strategies.enums.TradeState] is imported, not
    defined, by the source; the spec gives its members. *)
Inductive TradeState : Type :=
| buy
| sell
| none.

Global Instance TradeState_eq_dec : EqDecision TradeState.
Proof. solve_decision. Defined.

(** Modelled from the spec: the class of the trade actions is defined
    outside the source; the spec gives its attributes. *)
Record TradeAction : Type := {
  pair : string;
  action : TradeState;
  amount : float;
  rate : float;
  buy_sell_all : bool
}.

(** ** [get_buy_sell_all_amount] *)

(** Lines 171-177: the amount before the fee. *)
Definition all_assets_amount (wallet : gmap string float)
    (action : TradeState) (symbol_1 symbol_2 : string) (rate : float)
    : float :=
  match action, wallet !! symbol_1, wallet !! symbol_2 with
  | buy, Some assets, _ => (assets / rate)%float
  | sell, _, Some assets => assets
  | _, _, _ => 0%float
  end.

(** Lines 179-184: the early return and the fee. *)
Definition deduct_fee (self : BittrexClient) (amount : float) : float :=
  if (amount <=? 0)%float then 0%float
  else
    let txn_fee_amount := (transaction_fee self * amount / 100)%float in
    (amount - txn_fee_amount)%float.

Definition get_buy_sell_all_amount (self : BittrexClient)
    (wallet : gmap string float) (action : TradeState) (pair : string)
    (rate : float) : result float :=
  if decide (action = none) then Ok 0%float
  else if (rate =? 0)%float then Ok 0%float
  else
    match str_split pair_delimiter pair with
    | [symbol_1; symbol_2] =>
        Ok (deduct_fee self
              (all_assets_amount wallet action symbol_1 symbol_2 rate))
    | _ => Raise ValueError
    end.

(** ** [get_balances] and [life_trade] *)

(** The return value of [buy_limit] and [sell_limit]. *)
Record OrderRet : Type := {
  success : bool;
  message : string;
  uuid : string
}.

(** A call to the endpoint together with what it answered. *)
Inductive Event : Type :=
| GetBalances (result : list (string * float))
| BuyLimit (market : string) (quantity rate : float) (ret : OrderRet)
| SellLimit (market : string) (quantity rate : float) (ret : OrderRet).

(** The endpoint [self.bittrex] as [life_trade] uses it.  It is a black box:
    each answer may depend on every call made before. *)
Record Bittrex : Type := {
  get_balances_result : list Event -> list (string * float);
  buy_limit : list Event -> string -> float -> float -> OrderRet;
  sell_limit : list Event -> string -> float -> float -> OrderRet
}.

(** The dictionary built by [get_balances], lines 101-104. *)
Definition balances_dict (balances : list (string * float))
    : gmap string float :=
  fold_left (fun pairs item => <[item.1 := item.2]> pairs) balances ∅.

(** Action objects are mutable and shared: the list holds references. *)
Definition loc : Type := nat.

(** The state [life_trade] works on: the action objects, the list [actions]
    (mutated in place), the class attribute [open_orders], and the calls made
    to the endpoint, each with the action that was being processed. *)
Record State : Type := {
  objs : loc -> TradeAction;
  actions : list loc;
  open_orders : list string;
  trace : list (loc * Event)
}.

Definition history (st : State) : list Event := (trace st).*2.

Definition record_event (st : State) (a : loc) (ev : Event) : State :=
  {| objs := objs st; actions := actions st; open_orders := open_orders st;
     trace := trace st ++ [(a, ev)] |}.

(** [action.amount = x] on the object [a]. *)
Definition set_amount (st : State) (a : loc) (x : float) : State :=
  let act := objs st a in
  {| objs := <[a := {| pair := pair act; action := action act; amount := x;
                       rate := rate act; buy_sell_all := buy_sell_all act |}]>
               (objs st);
     actions := actions st; open_orders := open_orders st;
     trace := trace st |}.

(** [actions.remove(action)]. *)
Definition remove_action (st : State) (a : loc) : State * option exn :=
  match list_remove a (actions st) with
  | Ok l =>
      ({| objs := objs st; actions := l; open_orders := open_orders st;
          trace := trace st |}, None)
  | Raise e => (st, Some e)
  end.

(** [self.open_orders.append(uuid)]. *)
Definition append_order (st : State) (id : string) : State :=
  {| objs := objs st; actions := actions st;
     open_orders := open_orders st ++ [id]; trace := trace st |}.

Section LifeTrade.

Variable self : BittrexClient.
Variable bittrex : Bittrex.

(** Lines 194-196: the balance fetch and the all-in amount. *)
Definition resolve (st : State) (a : loc) : State * option exn :=
  let market := str_replace "_" pair_delimiter (pair (objs st a)) in
  let balances := get_balances_result bittrex (history st) in
  let st := record_event st a (GetBalances balances) in
  let wallet := balances_dict balances in
  if buy_sell_all (objs st a) then
    match get_buy_sell_all_amount self wallet (action (objs st a)) market
            (rate (objs st a)) with
    | Ok x => (set_amount st a x, None)
    | Raise e => (st, Some e)
    end
  else (st, None).

(** Lines 214-238: the order and the registry. *)
Definition submit (st : State) (a : loc) : State * option exn :=
  let market := str_replace "_" pair_delimiter (pair (objs st a)) in
  let act := objs st a in
  match action act with
  | buy =>
      let ret := buy_limit bittrex (history st) market (amount act)
                   (rate act) in
      let st := record_event st a
                  (BuyLimit market (amount act) (rate act) ret) in
      if negb (success ret) then (st, None)
      else (append_order st (uuid ret), None)
  | sell =>
      let ret := sell_limit bittrex (history st) market (amount act)
                   (rate act) in
      let st := record_event st a
                  (SellLimit market (amount act) (rate act) ret) in
      if negb (success ret) then (st, None)
      else (append_order st (uuid ret), None)
  | none => (st, None)
  end.

(** One pass through the body of the [for] loop, lines 191-238, with the
    loop variable bound to the object [a]. *)
Definition life_trade_body (st : State) (a : loc) : State * option exn :=
  match resolve st a with
  | (st, Some e) => (st, Some e)
  | (st, None) =>
      if decide (action (objs st a) = none) then remove_action st a
      else if (amount (objs st a) =? 0)%float then remove_action st a
      else submit st a
  end.

(** The [for] loop: Python's list iterator keeps an index [i] into the
    list as it currently is, and stops when the index is out of range.
    [None] stands for running out of [fuel]. *)
Fixpoint life_trade_loop (fuel : nat) (i : nat) (st : State)
    : option (State * option exn) :=
  match actions st !! i with
  | None => Some (st, None)
  | Some a =>
      match fuel with
      | O => None
      | S fuel' =>
          match life_trade_body st a with
          | (st', Some e) => Some (st', Some e)
          | (st', None) => life_trade_loop fuel' (S i) st'
          end
      end
  end.

(** [life_trade(actions)]: the final state, whose [actions] is the list
    returned, and the exception raised, if any. *)
Definition life_trade (st : State) : option (State * option exn) :=
  life_trade_loop (length (actions st)) 0 st.

End LifeTrade.

(** ** A reference instance of the timestamp parser

    Used by the examples below: fixed-width ['%Y-%m-%dT%H:%M:%S'] fields, read
    as UTC (the value of [mktime] when the time zone of the process is UTC,
    and of [replace(tzinfo=utc).timestamp()] always). *)

Module RefClock.

Definition digit (c : ascii) : option Z :=
  let n := Z.of_nat (nat_of_ascii c) in
  if (48 <=? n) && (n <=? 57) then Some (n - 48) else None.

Fixpoint number (acc : Z) (cs : list ascii) : option Z :=
  match cs with
  | [] => Some acc
  | c :: cs' => d ← digit c; number (10 * acc + d) cs'
  end.

(** Days from 1970-01-01 to the given day of the proleptic Gregorian
    calendar. *)
Definition days_from_civil (y m d : Z) : Z :=
  let y' := if m <=? 2 then y - 1 else y in
  let era := y' / 400 in
  let yoe := y' - era * 400 in
  let doy := (153 * (if 2 <? m then m - 3 else m + 9) + 2) / 5 + d - 1 in
  let doe := yoe * 365 + yoe / 4 - yoe / 100 + doy in
  era * 146097 + doe - 719468.

Definition is_sep (c sep : ascii) : bool := Ascii.eqb c sep.

Definition utc_epoch (s : string) : result Z :=
  match list_ascii_of_string s with
  | [y1; y2; y3; y4; s1; m1; m2; s2; d1; d2; s3; h1; h2; s4; n1; n2; s5;
     c1; c2] =>
      if is_sep s1 "-" && is_sep s2 "-" && is_sep s3 "T" && is_sep s4 ":"
         && is_sep s5 ":" then
        match number 0 [y1; y2; y3; y4], number 0 [m1; m2],
              number 0 [d1; d2], number 0 [h1; h2], number 0 [n1; n2],
              number 0 [c1; c2] with
        | Some y, Some m, Some d, Some h, Some n, Some c =>
            if (1 <=? m) && (m <=? 12) && (1 <=? d) && (d <=? 31)
               && (h <=? 23) && (n <=? 59) && (c <=? 61) then
              Ok (days_from_civil y m d * 86400 + h * 3600 + n * 60 + c)
            else Raise ValueError
        | _, _, _, _, _, _ => Raise ValueError
        end
      else Raise ValueError
  | _ => Raise ValueError
  end.

End RefClock.

(** ** Statements of the specification, and helpers to phrase the theorems *)

(** [ceil(a / b)] over the integers. *)
Definition ceil_div (a b : Z) : Z := - ((- a) / b).

(** [len(...)] of what [return_candles] returns, and its items. *)
Definition candles_items (res : candles) : list raw_ticker :=
  match res with
  | EmptyDict => []
  | OutTickers out => out
  end.

(** The forward-fill rule in the words of the specification: at every grid
    point [t] at or after some retained raw tick, a candle is emitted that
    copies the retained tick with the largest timestamp [<= t], its timestamp
    overwritten by [t]. *)
Definition forward_fill_largest (mktime_strptime : string -> result Z)
    (get_ticks : string -> string -> option (list Tick))
    (currency_pair : string) (epoch_start epoch_end period : Z) : Prop :=
  forall feed got raw grid t r,
    get_ticks (str_replace "_" pair_delimiter currency_pair) "fiveMin"
      = Some feed ->
    parse_tickers mktime_strptime epoch_start feed false [] = Ok (got, raw) ->
    range epoch_start epoch_end period = Ok grid ->
    t ∈ grid ->
    r ∈ raw -> date r <= t ->
    (forall r', r' ∈ raw -> date r' <= t -> date r' <= date r) ->
    exists res,
      return_candles mktime_strptime get_ticks currency_pair epoch_start
        epoch_end period = Ok res
      /\ set_date r t ∈ candles_items res.

(** The count and alignment rule in the words of the specification. *)
Definition candle_count_and_grid (mktime_strptime : string -> result Z)
    (get_ticks : string -> string -> option (list Tick))
    (currency_pair : string) (epoch_start epoch_end period : Z) : Prop :=
  0 < period -> epoch_start < epoch_end ->
  exists res,
    return_candles mktime_strptime get_ticks currency_pair epoch_start
      epoch_end period = Ok res
    /\ Z.of_nat (length (candles_items res))
       = ceil_div (epoch_end - epoch_start) period
    /\ forall c, c ∈ candles_items res ->
         exists k : nat, date c = epoch_start + Z.of_nat k * period.

(** A tick of the feed is stale when it parses to an epoch strictly older
    than [epoch_start - 6h]. *)
Definition is_stale (mktime_strptime : string -> result Z) (epoch_start : Z)
    (ticker : Tick) : bool :=
  match mktime_strptime (tk_T ticker) with
  | Ok epoch => epoch <? epoch_start - 6 * 3600
  | Raise _ => false
  end.

Definition drop_stale (mktime_strptime : string -> result Z) (epoch_start : Z)
    (feed : list Tick) : list Tick :=
  List.filter (fun ticker => negb (is_stale mktime_strptime epoch_start ticker))
    feed.

(** The trailing-window volume in the words of the specification: the
    quantities of the records whose epoch lies in
    [[now - window_minutes * 60, now]], both bounds checked. *)
Fixpoint volume_in_window (strptime_utc : string -> result Z)
    (epoch_now window_minutes : Z) (history : list TradeRecord)
    (volume : float) : result float :=
  match history with
  | [] => Ok volume
  | item :: rest =>
      epoch ← item_epoch strptime_utc item;
      if (epoch_now - window_minutes * 60 <=? epoch) && (epoch <=? epoch_now)
      then volume_in_window strptime_utc epoch_now window_minutes rest
             (volume + Quantity item)%float
      else volume_in_window strptime_utc epoch_now window_minutes rest volume
  end.

(** The quantities the source adds up: those of the records at or after the
    start of the window, in the order of [history]. *)
Definition quantities_since (epoch_candle_start : Z)
    (history : list TradeRecord) (epochs : list Z) : list float :=
  Quantity <$>
    (List.filter (fun p : TradeRecord * Z => epoch_candle_start <=? p.2)
       (zip history epochs)).*1.

(** The fee rule in the words of the specification:
    [amount -= amount * fee_percent / 100], after the short-circuit on a
    pre-fee amount [<= 0]. *)
Definition net_of_fee (fee_percent amount : float) : float :=
  if (amount <=? 0)%float then 0%float
  else (amount - amount * fee_percent / 100)%float.

(** A float is negative when the IEEE comparison puts it below zero. *)
Definition SFnegative (x : spec_float) : bool := SFltb x (S754_zero false).

(** The identifier an order event adds to the registry, if any. *)
Definition confirmed_uuid (ev : Event) : option string :=
  match ev with
  | GetBalances _ => None
  | BuyLimit _ _ _ ret | SellLimit _ _ _ ret =>
      if success ret then Some (uuid ret) else None
  end.

Definition confirmed_uuids (evs : list (loc * Event)) : list string :=
  omap (fun ev : loc * Event => confirmed_uuid ev.2) evs.

(** The order event of the action [a] in the state [st]: the call made at
    lines 217 / 230 and its answer. *)
Definition order_event (bittrex : Bittrex) (st : State) (a : loc)
    : option Event :=
  let market := str_replace "_" pair_delimiter (pair (objs st a)) in
  let act := objs st a in
  match action act with
  | buy =>
      Some (BuyLimit market (amount act) (rate act)
              (buy_limit bittrex (history st) market (amount act) (rate act)))
  | sell =>
      Some (SellLimit market (amount act) (rate act)
              (sell_limit bittrex (history st) market (amount act) (rate act)))
  | none => None
  end.

Definition is_order (ev : Event) : bool :=
  match ev with
  | GetBalances _ => false
  | BuyLimit _ _ _ _ | SellLimit _ _ _ _ => true
  end.

(** ** Inputs of the examples *)

Module Fixtures.

Definition tick (t : string) (price : float) : Tick :=
  {| tk_T := t; tk_H := price; tk_L := price; tk_O := price; tk_C := price;
     tk_V := 0%float; tk_BV := 0%float |}.

(** Raw ticks at t=0 (open 1) and t=300 (open 2), oldest first. *)
Definition ordered_feed : list Tick :=
  [tick "1970-01-01T00:00:00" 1%float; tick "1970-01-01T00:05:00" 2%float].

(** The same two ticks, newest first. *)
Definition unordered_feed : list Tick :=
  [tick "1970-01-01T00:05:00" 2%float; tick "1970-01-01T00:00:00" 1%float].

(** An endpoint that answers every [get_ticks] call with [feed]. *)
Definition serve (feed : option (list Tick))
    : string -> string -> option (list Tick) :=
  fun _ _ => feed.

Definition client (fee_percent : float) : BittrexClient :=
  {| transaction_fee := fee_percent; verbosity := 2 |}.

Definition wallet_one_btc : gmap string float := {[ "BTC"%string := 1%float ]}.

(** The clock reading of the examples: 01:45:00 on the first day. *)
Definition epoch_now : Z := 6300.

(** A trade 30 minutes before [epoch_now], one 90 minutes before it, and one
    60 seconds after it. *)
Definition recent_trade : TradeRecord :=
  {| TimeStamp := "1970-01-01T01:15:00.250"; Quantity := 5%float |}.

Definition old_trade : TradeRecord :=
  {| TimeStamp := "1970-01-01T00:15:00"; Quantity := 7%float |}.

Definition future_trade : TradeRecord :=
  {| TimeStamp := "1970-01-01T01:46:00.500"; Quantity := 5%float |}.

Definition noop_action : TradeAction :=
  {| pair := "BTC_USDT"; action := none; amount := 1%float; rate := 2%float;
     buy_sell_all := false |}.

Definition buy_action : TradeAction :=
  {| pair := "BTC_USDT"; action := buy; amount := 1%float; rate := 2%float;
     buy_sell_all := false |}.

Definition sell_action : TradeAction :=
  {| pair := "BTC_USDT"; action := sell; amount := 1%float; rate := 2%float;
     buy_sell_all := false |}.

(** An endpoint that accepts every buy and rejects every sell. *)
Definition endpoint : Bittrex :=
  {| get_balances_result := fun _ => [("BTC"%string, 1%float)];
     buy_limit := fun _ _ _ _ =>
       {| success := true; message := ""; uuid := "order-1" |};
     sell_limit := fun _ _ _ _ =>
       {| success := false; message := "INSUFFICIENT_FUNDS"; uuid := "" |} |}.

Definition state_of (objects : loc -> TradeAction) (l : list loc) : State :=
  {| objs := objects; actions := l; open_orders := []; trace := [] |}.

(** Two distinct action objects, both with action [none]. *)
Definition two_noops : State := state_of (fun _ => noop_action) [0%nat; 1%nat].

(** Object 0 is a [none] action, object 1 a buy, every other one a sell. *)
Definition objects (l : loc) : TradeAction :=
  match l with
  | O => noop_action
  | S O => buy_action
  | _ => sell_action
  end.

(** A [none] action followed by a buy and a sell. *)
Definition noop_buy_sell : State := state_of objects [0%nat; 1%nat; 2%nat].

End Fixtures.

(** ** [get_pairs], and helpers to phrase further properties *)

(** One item of [get_market_summaries()['result']]. *)
Record MarketSummary : Type := {
  MarketName : string
}.

(** The loop of lines 35-38 on the rest of [res], with the current value of
    [pairs]. *)
Fixpoint get_pairs_loop (res : list MarketSummary) (pairs : list string)
    : list string :=
  match res with
  | [] => pairs
  | market :: rest => get_pairs_loop rest (pairs ++ [MarketName market])
  end.

(** [get_pairs], on the [result] of the endpoint's market summaries. *)
Definition get_pairs (res : list MarketSummary) : list string :=
  get_pairs_loop res [].

(** [c in s] for one character. *)
Fixpoint str_contains (c : ascii) (s : string) : bool :=
  match s with
  | EmptyString => false
  | String c' rest => Ascii.eqb c' c || str_contains c rest
  end.

(** What the parsing loop keeps of one tick whose timestamp parses. *)
Definition retain (mktime_strptime : string -> result Z) (epoch_start : Z)
    (ticker : Tick) : option raw_ticker :=
  match mktime_strptime (tk_T ticker) with
  | Ok epoch =>
      if epoch <? epoch_start - 6 * 3600 then None
      else Some (make_raw_ticker ticker epoch)
  | Raise _ => None
  end.

(** The action a balance fetch, respectively an order call, was made for. *)
Definition fetch_tag (ev : loc * Event) : option loc :=
  match ev.2 with
  | GetBalances _ => Some ev.1
  | BuyLimit _ _ _ _ | SellLimit _ _ _ _ => None
  end.

Definition order_tag (ev : loc * Event) : option loc :=
  if is_order ev.2 then Some ev.1 else None.

(** An order call with a non-zero quantity on a market name in the
    exchange's form. *)
Definition order_well_formed (ev : Event) : Prop :=
  match ev with
  | GetBalances _ => True
  | BuyLimit market quantity _ _ | SellLimit market quantity _ _ =>
      (quantity =? 0)%float = false /\ str_contains "_" market = false
  end.

(** Two versions of an action object that differ at most in [amount], and
    not even there unless [buy_sell_all] is set. *)
Definition same_but_amount (o o' : TradeAction) : Prop :=
  pair o' = pair o /\ action o' = action o /\ rate o' = rate o /\
  buy_sell_all o' = buy_sell_all o /\
  (buy_sell_all o = false -> amount o' = amount o).

(** Two floats that an IEEE comparison with [c] tells apart are different. *)
Ltac float_discriminate H c :=
  apply (f_equal (fun x => PrimFloat.eqb x c)) in H;
  vm_compute in H; discriminate H.

(** ** Properties of the builtins *)

Lemma range_positive_step (start stop step : Z) :
  0 < step ->
  range start stop step
  = Ok ((fun k => start + Z.of_nat k * step)
          <$> seq 0 (Z.to_nat (range_length start stop step))).
Proof.
  intros Hstep. unfold range.
  destruct (Z.eqb_spec step 0) as [->|_]; [lia|].
  destruct (Z.ltb_spec 0 step); [reflexivity|lia].
Qed.

Lemma range_length_ceil (lo hi step : Z) :
  0 < step -> lo < hi -> range_length lo hi step = ceil_div (hi - lo) step.
Proof.
  intros Hstep Hlt. unfold range_length, ceil_div.
  destruct (Z.ltb_spec lo hi); [|lia].
  pose proof (Z.div_mod (hi - lo - 1) step ltac:(lia)) as E1.
  pose proof (Z.mod_pos_bound (hi - lo - 1) step Hstep) as B1.
  pose proof (Z.div_mod (- (hi - lo)) step ltac:(lia)) as E2.
  pose proof (Z.mod_pos_bound (- (hi - lo)) step Hstep) as B2.
  nia.
Qed.

Lemma range_length_nonneg (lo hi step : Z) :
  0 < step -> 0 <= range_length lo hi step.
Proof.
  intros Hstep. unfold range_length.
  destruct (Z.ltb_spec lo hi); [|lia].
  pose proof (Z.div_pos (hi - lo - 1) step ltac:(lia) Hstep). lia.
Qed.

(** Every item of a range with a positive step lies in [[start, stop)]. *)
Lemma range_item_bounds (start stop step : Z) (k : nat) :
  0 < step -> (k < Z.to_nat (range_length start stop step))%nat ->
  start <= start + Z.of_nat k * step < stop.
Proof.
  intros Hstep Hk. unfold range_length in Hk.
  destruct (Z.ltb_spec start stop); [|simpl in Hk; lia].
  pose proof (Z.div_mod (stop - start - 1) step ltac:(lia)) as E1.
  pose proof (Z.mod_pos_bound (stop - start - 1) step Hstep) as B1.
  assert (Z.of_nat k <= (stop - start - 1) / step) by lia.
  nia.
Qed.

Lemma list_remove_elem {A} `{EqDecision A} (x : A) (l : list A) :
  x ∈ l -> exists l', list_remove x l = Ok l'.
Proof.
  induction l as [|y l IH]; intros Hin.
  - inversion Hin.
  - simpl. destruct (decide (x = y)) as [->|Hne]; [eauto|].
    apply elem_of_cons in Hin as [?|Hin]; [done|].
    destruct (IH Hin) as [l' ->]. simpl. eauto.
Qed.

Lemma list_remove_length {A} `{EqDecision A} (x : A) (l l' : list A) :
  list_remove x l = Ok l' -> length l = S (length l').
Proof.
  revert l'. induction l as [|y l IH]; intros l' H; simpl in H; [done|].
  destruct (decide (x = y)); [by injection H as <-|].
  destruct (list_remove x l) as [l0|e] eqn:E; simpl in H; [|done].
  injection H as <-. simpl. by rewrite (IH l0).
Qed.

Lemma list_remove_other {A} `{EqDecision A} (x y : A) (l l' : list A) :
  list_remove x l = Ok l' -> y <> x -> y ∈ l -> y ∈ l'.
Proof.
  revert l'. induction l as [|z l IH]; intros l' H Hne Hin; simpl in H; [done|].
  destruct (decide (x = z)) as [->|Hxz].
  - injection H as <-. apply elem_of_cons in Hin as [?|?]; done.
  - destruct (list_remove x l) as [l0|e] eqn:E; simpl in H; [|done].
    injection H as <-. apply elem_of_cons in Hin as [->|Hin].
    + apply elem_of_cons; by left.
    + apply elem_of_cons; right. by apply IH.
Qed.

(** Removing the loop variable moves every later element one index down:
    what lay beyond the next index stays beyond the current one. *)
Lemma list_remove_drop {A} `{EqDecision A} (x : A) (l l' : list A) (i : nat) :
  list_remove x l = Ok l' -> l !! i = Some x ->
  drop (S i) l' = drop (S (S i)) l.
Proof.
  revert l' i. induction l as [|z l IH]; intros l' i H Hi; simpl in H; [done|].
  destruct (decide (x = z)) as [->|Hxz].
  - by injection H as <-.
  - destruct (list_remove x l) as [l0|e] eqn:E; simpl in H; [|done].
    injection H as <-. destruct i as [|i]; simpl in Hi.
    + congruence.
    + simpl. by apply IH.
Qed.

(** ** Properties of [return_candles] *)

Section ReturnCandlesFacts.

Variable mktime_strptime : string -> result Z.

(** The guard of line 85 never fires. *)
Lemma negative_length_is_dead {A} (items : list A) :
  (Z.of_nat (length items) <? 0) = false.
Proof. apply Z.ltb_ge. lia. Qed.

Lemma last_filter_split {A} (P : A -> bool) (l : list A) (x : A) :
  last (List.filter P l) = Some x ->
  exists l1 l2, l = l1 ++ x :: l2 /\ P x = true /\ List.filter P l2 = [].
Proof.
  induction l as [|y l IH]; simpl; [done|].
  destruct (P y) eqn:Py.
  - destruct (List.filter P l) as [|z fl] eqn:Efl.
    + simpl. intros [= ->]. by exists [], l.
    + change (last (y :: z :: fl)) with (last (z :: fl)). intros Hlast.
      destruct (IH Hlast) as (l1 & l2 & -> & Hx & Hl2).
      by exists (y :: l1), l2.
  - intros Hlast. destruct (IH Hlast) as (l1 & l2 & -> & Hx & Hl2).
    by exists (y :: l1), l2.
Qed.

Lemma filter_nil_not {A} (P : A -> bool) (l : list A) (x : A) :
  List.filter P l = [] -> x ∈ l -> P x = false.
Proof.
  intros Hnil Hin. destruct (P x) eqn:Px; [|done].
  assert (In x (List.filter P l)) as Hf
    by (apply filter_In; split; [by apply list_elem_of_In|done]).
  rewrite Hnil in Hf. destruct Hf.
Qed.

(** In a feed in timestamp order the last eligible tick is the latest one. *)
Lemma last_eligible_is_latest (raw : list raw_ticker) (t : Z) (item : raw_ticker) :
  StronglySorted (fun r1 r2 => date r1 <= date r2) raw ->
  last (List.filter (fun e => date e <=? t) raw) = Some item ->
  item ∈ raw /\ date item <= t /\
  forall r, r ∈ raw -> date r <= t -> date r <= date item.
Proof.
  intros Hsorted Hlast.
  destruct (last_filter_split _ _ _ Hlast) as (l1 & l2 & -> & Hx & Hl2).
  apply Z.leb_le in Hx. split; [|split; [done|]].
  - apply elem_of_app; right. apply elem_of_cons; by left.
  - intros r Hr Hrt.
    apply elem_of_app in Hr as [Hr|Hr].
    + clear Hlast. induction l1 as [|y l1 IH]; [inversion Hr|].
      simpl in Hsorted. apply StronglySorted_inv in Hsorted as [Hs Hall].
      apply elem_of_cons in Hr as [->|Hr]; [|by apply IH].
      rewrite Forall_forall in Hall. apply Hall.
      apply elem_of_app; right. apply elem_of_cons; by left.
    + apply elem_of_cons in Hr as [->|Hr]; [lia|].
      pose proof (filter_nil_not _ _ _ Hl2 Hr) as Hno. simpl in Hno.
      apply Z.leb_gt in Hno. lia.
Qed.

(** When every grid point has an eligible tick the loop of lines 83-91 ends
    normally, with one candle per grid point. *)
Lemma interpolate_covered (raw : list raw_ticker) (grid : list Z)
    (acc : list raw_ticker) :
  (forall t, t ∈ grid -> exists r, r ∈ raw /\ date r <= t) ->
  exists out,
    interpolate raw grid acc = Ok (acc ++ out) /\
    Forall2 (fun t candle => exists item,
               last (List.filter (fun e => date e <=? t) raw) = Some item /\
               candle = set_date item t) grid out.
Proof.
  revert acc. induction grid as [|t grid IH]; intros acc Hcov.
  - exists []. simpl. by rewrite app_nil_r.
  - simpl. rewrite negative_length_is_dead.
    destruct (Hcov t) as (r & Hr & Hrt); [apply elem_of_cons; by left|].
    assert (In r (List.filter (fun e => date e <=? t) raw)) as Hf.
    { apply filter_In. split; [by apply list_elem_of_In|by apply Z.leb_le]. }
    unfold last_item.
    destruct (last (List.filter (fun e => date e <=? t) raw)) as [item|] eqn:El.
    + simpl.
      destruct (IH (acc ++ [set_date item t])) as (out & Hout & Hall).
      { intros t' Ht'. apply Hcov. apply elem_of_cons; by right. }
      exists (set_date item t :: out). split.
      * rewrite Hout. by rewrite <- app_assoc.
      * constructor; [by exists item|done].
    + apply last_None in El. rewrite El in Hf. destruct Hf.
Qed.

(** An empty selection at the first grid point raises at line 89. *)
Lemma interpolate_uncovered (raw : list raw_ticker) (t : Z) (grid : list Z)
    (acc : list raw_ticker) :
  (forall r, r ∈ raw -> t < date r) ->
  interpolate raw (t :: grid) acc = Raise IndexError.
Proof.
  intros Hnone. simpl. rewrite negative_length_is_dead.
  assert (List.filter (fun e => date e <=? t) raw = []) as ->; [|done].
  induction raw as [|r raw IH]; [done|]. simpl.
  destruct (Z.leb_spec (date r) t) as [Hle|_].
  - specialize (Hnone r ltac:(apply elem_of_cons; by left)). lia.
  - apply IH. intros r' Hr'. apply Hnone. apply elem_of_cons; by right.
Qed.

(** The parsing loop keeps what it had and never keeps a stale tick. *)
Lemma parse_tickers_retained (epoch_start : Z) (feed : list Tick) (got : bool)
    (acc : list raw_ticker) (got' : bool) (raw : list raw_ticker) :
  parse_tickers mktime_strptime epoch_start feed got acc = Ok (got', raw) ->
  exists new,
    raw = acc ++ new /\
    Forall (fun r => epoch_start - 6 * 3600 <= date r) new /\
    forall ticker epoch, ticker ∈ feed ->
      mktime_strptime (tk_T ticker) = Ok epoch ->
      epoch_start - 6 * 3600 <= epoch ->
      make_raw_ticker ticker epoch ∈ new.
Proof.
  revert got acc. induction feed as [|ticker feed IH]; intros got acc H.
  - simpl in H. injection H as _ <-. exists []. rewrite app_nil_r.
    repeat split; [constructor|]. intros ? ? Hin. inversion Hin.
  - simpl in H.
    destruct (mktime_strptime (tk_T ticker)) as [epoch|e] eqn:Ep; simpl in H;
      [|done].
    destruct (Z.ltb_spec epoch (epoch_start - 6 * 3600)) as [Hstale|Hkeep].
    + destruct (IH _ _ H) as (new & -> & Hall & Hin).
      exists new. repeat split; [done|].
      intros tk ep Htk Hep Hb. apply elem_of_cons in Htk as [->|Htk].
      * rewrite Ep in Hep. injection Hep as <-. lia.
      * by eapply Hin.
    + destruct (IH _ _ H) as (new & -> & Hall & Hin).
      exists (make_raw_ticker ticker epoch :: new).
      rewrite <- app_assoc. repeat split; [by constructor|].
      intros tk ep Htk Hep Hb. apply elem_of_cons in Htk as [->|Htk].
      * rewrite Ep in Hep. injection Hep as <-. apply elem_of_cons; by left.
      * apply elem_of_cons; right. by eapply Hin.
Qed.

(** Stale ticks leave no trace in [raw_tickers]; they can only change the
    flag [got_min_epoch_ticker], which nothing but a diagnostic reads. *)
Lemma parse_tickers_drop_stale (epoch_start : Z) (feed : list Tick)
    (got1 got2 : bool) (acc : list raw_ticker) :
  snd <$> parse_tickers mktime_strptime epoch_start
            (drop_stale mktime_strptime epoch_start feed) got1 acc
  = snd <$> parse_tickers mktime_strptime epoch_start feed got2 acc.
Proof.
  revert got1 got2 acc. induction feed as [|ticker feed IH]; intros; [done|].
  unfold drop_stale in *. simpl. unfold is_stale at 1.
  destruct (mktime_strptime (tk_T ticker)) as [epoch|e] eqn:Ep.
  - simpl. destruct (epoch <? epoch_start - 6 * 3600) eqn:Hstale; simpl.
    + apply IH.
    + rewrite Ep. simpl. rewrite Hstale. apply IH.
  - simpl. by rewrite Ep.
Qed.

End ReturnCandlesFacts.

(** With a retained tick at or before [epoch_start], every grid point has an
    eligible tick and [return_candles] returns one candle per grid point: the
    copy of the last eligible tick in feed order. *)
Lemma return_candles_covered (mktime_strptime : string -> result Z)
    (get_ticks : string -> string -> option (list Tick))
    (currency_pair : string) (epoch_start epoch_end period : Z)
    (feed : list Tick) (got : bool) (raw : list raw_ticker) :
  get_ticks (str_replace "_" pair_delimiter currency_pair) "fiveMin"
    = Some feed ->
  parse_tickers mktime_strptime epoch_start feed false [] = Ok (got, raw) ->
  (exists r, r ∈ raw /\ date r <= epoch_start) ->
  0 < period ->
  exists out,
    return_candles mktime_strptime get_ticks currency_pair epoch_start
      epoch_end period = Ok (OutTickers out) /\
    Forall2 (fun t candle => exists item,
               last (List.filter (fun e => date e <=? t) raw) = Some item /\
               candle = set_date item t)
      ((fun k => epoch_start + Z.of_nat k * period)
         <$> seq 0 (Z.to_nat (range_length epoch_start epoch_end period)))
      out.
Proof.
  intros Hfeed Hparse (r & Hr & Hrs) Hperiod.
  destruct (interpolate_covered raw
              ((fun k => epoch_start + Z.of_nat k * period)
                 <$> seq 0 (Z.to_nat (range_length epoch_start epoch_end period)))
              []) as (out & Hout & Hall).
  { intros t Ht. apply list_elem_of_fmap in Ht as (k & -> & Hk).
    exists r. split; [done|]. nia. }
  exists out. split; [|done].
  unfold return_candles. rewrite Hfeed, Hparse. simpl.
  rewrite range_positive_step by done. simpl. by rewrite Hout.
Qed.

(** C1 (counterexample): with the two ticks of the example served newest
    first, the candle at t=300 copies the tick at t=0, the last one in feed
    order, and not the tick at t=300, which has the largest timestamp <= 300:
    the forward-fill rule as the specification words it fails. *)
Lemma forward_fill_largest_fails_on_unordered_feed :
  ~ forward_fill_largest RefClock.utc_epoch
      (Fixtures.serve (Some Fixtures.unordered_feed)) "BTC_USDT" 0 600 150.
Proof.
  intros H.
  destruct (H Fixtures.unordered_feed true
              [make_raw_ticker (Fixtures.tick "1970-01-01T00:05:00" 2%float) 300;
               make_raw_ticker (Fixtures.tick "1970-01-01T00:00:00" 1%float) 0]
              [0; 150; 300; 450] 300
              (make_raw_ticker (Fixtures.tick "1970-01-01T00:05:00" 2%float) 300))
    as (res & Hres & Hin).
  - reflexivity.
  - reflexivity.
  - reflexivity.
  - repeat (apply elem_of_cons; first [by left | right]).
  - apply elem_of_cons; by left.
  - simpl. lia.
  - intros r' Hr' _.
    repeat (apply elem_of_cons in Hr' as [->|Hr']; [simpl; lia|]).
    inversion Hr'.
  - vm_compute in Hres. injection Hres as <-. simpl in Hin.
    repeat (apply elem_of_cons in Hin as [Hin|Hin];
            [apply (f_equal open) in Hin; simpl in Hin;
             float_discriminate Hin 1%float|]).
    inversion Hin.
Qed.

(** C1 (amended): when the retained raw ticks are in timestamp order and one
    of them lies at or before [epoch_start], [return_candles] returns one
    candle per grid point of [range(epoch_start, epoch_end, period)], in
    order, and the candle at [t] copies the retained tick that comes last in
    feed order among those with timestamp [<= t], which has the largest
    timestamp [<= t], with its timestamp overwritten by [t].  For the raw
    ticks at t=0 (open 1) and t=300 (open 2), with epoch_start=0,
    epoch_end=600 and period=150, the opens are 1, 1, 2, 2. *)
Theorem return_candles_forward_fill :
  (forall (mktime_strptime : string -> result Z)
      (get_ticks : string -> string -> option (list Tick))
      (currency_pair : string) (epoch_start epoch_end period : Z)
      (feed : list Tick) (got : bool) (raw : list raw_ticker),
    get_ticks (str_replace "_" pair_delimiter currency_pair) "fiveMin"
      = Some feed ->
    parse_tickers mktime_strptime epoch_start feed false [] = Ok (got, raw) ->
    StronglySorted (fun r1 r2 => date r1 <= date r2) raw ->
    (exists r, r ∈ raw /\ date r <= epoch_start) ->
    0 < period ->
    exists grid out,
      range epoch_start epoch_end period = Ok grid /\
      return_candles mktime_strptime get_ticks currency_pair epoch_start
        epoch_end period = Ok (OutTickers out) /\
      Forall2 (fun t candle => exists item,
                 candle = set_date item t /\
                 last (List.filter (fun e => date e <=? t) raw) = Some item /\
                 item ∈ raw /\ date item <= t /\
                 forall r, r ∈ raw -> date r <= t -> date r <= date item)
        grid out)
  /\ (fun res => open <$> candles_items res)
       <$> return_candles RefClock.utc_epoch
             (Fixtures.serve (Some Fixtures.ordered_feed)) "BTC_USDT" 0 600 150
     = Ok [1%float; 1%float; 2%float; 2%float].
Proof.
  split; [|reflexivity].
  intros mk get_ticks pr start stop period feed got raw Hfeed Hparse Hsorted
    Hcover Hperiod.
  destruct (return_candles_covered mk get_ticks pr start stop period feed got
              raw Hfeed Hparse Hcover Hperiod) as (out & Hret & Hall).
  eexists _, out. split; [by apply range_positive_step|]. split; [done|].
  eapply Forall2_impl; [exact Hall|].
  intros t candle (item & Hlast & ->). exists item.
  destruct (last_eligible_is_latest raw t item Hsorted Hlast) as (? & ? & ?).
  done.
Qed.

(** The example of the specification is an instance of the general rule. *)
Lemma return_candles_forward_fill_witness :
  exists grid out,
    range 0 600 150 = Ok grid /\
    return_candles RefClock.utc_epoch
      (Fixtures.serve (Some Fixtures.ordered_feed)) "BTC_USDT" 0 600 150
    = Ok (OutTickers out) /\
    Forall2 (fun t candle => exists item,
               candle = set_date item t /\
               last (List.filter (fun e => date e <=? t)
                       [make_raw_ticker
                          (Fixtures.tick "1970-01-01T00:00:00" 1%float) 0;
                        make_raw_ticker
                          (Fixtures.tick "1970-01-01T00:05:00" 2%float) 300])
               = Some item /\
               item ∈ [make_raw_ticker
                         (Fixtures.tick "1970-01-01T00:00:00" 1%float) 0;
                       make_raw_ticker
                         (Fixtures.tick "1970-01-01T00:05:00" 2%float) 300] /\
               date item <= t /\
               forall r,
                 r ∈ [make_raw_ticker
                        (Fixtures.tick "1970-01-01T00:00:00" 1%float) 0;
                      make_raw_ticker
                        (Fixtures.tick "1970-01-01T00:05:00" 2%float) 300] ->
                 date r <= t -> date r <= date item)
      grid out.
Proof.
  apply (proj1 return_candles_forward_fill RefClock.utc_epoch
           (Fixtures.serve (Some Fixtures.ordered_feed)) "BTC_USDT" 0 600 150
           Fixtures.ordered_feed true).
  - reflexivity.
  - reflexivity.
  - repeat constructor; simpl; lia.
  - eexists. split; [apply elem_of_cons; by left|]. simpl. lia.
  - lia.
Defined.

(** C2 (counterexample): when the exchange has no ticks ([result] is
    [None]) the guard of lines 52-54 returns the empty [dict()]: zero
    candles, where the count rule asks for ceil(600 / 150) = 4. *)
Lemma candle_count_fails_on_unavailable_feed :
  ~ candle_count_and_grid RefClock.utc_epoch (Fixtures.serve None)
      "BTC_USDT" 0 600 150.
Proof.
  intros H. destruct H as (res & Hres & Hlen & _); [lia|lia|].
  vm_compute in Hres. injection Hres as <-.
  vm_compute in Hlen. discriminate Hlen.
Qed.

(** C2 (amended): for every [period > 0] and [epoch_start < epoch_end], when
    the exchange returns a tick list that parses and retains a tick at or
    before [epoch_start], [return_candles] returns exactly
    [ceil((epoch_end - epoch_start) / period)] candles, the [k]-th of them
    stamped [epoch_start + k * period], all within
    [[epoch_start, epoch_end)]: the grid is covered without gaps. *)
Theorem return_candles_count_and_grid
    (mktime_strptime : string -> result Z)
    (get_ticks : string -> string -> option (list Tick))
    (currency_pair : string) (epoch_start epoch_end period : Z)
    (feed : list Tick) (got : bool) (raw : list raw_ticker) :
  get_ticks (str_replace "_" pair_delimiter currency_pair) "fiveMin"
    = Some feed ->
  parse_tickers mktime_strptime epoch_start feed false [] = Ok (got, raw) ->
  (exists r, r ∈ raw /\ date r <= epoch_start) ->
  0 < period -> epoch_start < epoch_end ->
  exists out,
    return_candles mktime_strptime get_ticks currency_pair epoch_start
      epoch_end period = Ok (OutTickers out) /\
    Z.of_nat (length out) = ceil_div (epoch_end - epoch_start) period /\
    (forall (k : nat) c, out !! k = Some c ->
       date c = epoch_start + Z.of_nat k * period) /\
    (forall c, c ∈ out -> epoch_start <= date c < epoch_end).
Proof.
  intros Hfeed Hparse Hcover Hperiod Hlt.
  destruct (return_candles_covered mktime_strptime get_ticks currency_pair
              epoch_start epoch_end period feed got raw Hfeed Hparse Hcover
              Hperiod) as (out & Hret & Hall).
  pose proof (range_length_nonneg epoch_start epoch_end period Hperiod) as Hn.
  assert (forall (k : nat) c, out !! k = Some c ->
            (k < Z.to_nat (range_length epoch_start epoch_end period))%nat /\
            date c = epoch_start + Z.of_nat k * period) as Hk.
  { intros k c Hc.
    destruct (Forall2_lookup_r _ _ _ _ _ Hall Hc) as (t & Ht & item & _ & ->).
    apply list_lookup_fmap_Some in Ht as (k' & -> & Hk').
    apply lookup_seq in Hk' as [-> Hlt']. simpl. done. }
  exists out. split; [done|]. split; [|split].
  - apply Forall2_length in Hall.
    rewrite length_fmap, length_seq in Hall. rewrite <- Hall.
    rewrite Z2Nat.id by done. by apply range_length_ceil.
  - intros k c Hc. by apply Hk.
  - intros c Hc. apply list_elem_of_lookup in Hc as (k & Hc).
    destruct (Hk k c Hc) as (Hlt' & ->).
    by apply range_item_bounds.
Qed.

(** The feed of the forward-fill example yields four candles on the grid. *)
Lemma return_candles_count_and_grid_witness :
  exists out,
    return_candles RefClock.utc_epoch
      (Fixtures.serve (Some Fixtures.ordered_feed)) "BTC_USDT" 0 600 150
    = Ok (OutTickers out) /\
    Z.of_nat (length out) = ceil_div (600 - 0) 150 /\
    (forall (k : nat) c, out !! k = Some c -> date c = 0 + Z.of_nat k * 150) /\
    (forall c, c ∈ out -> 0 <= date c < 600).
Proof.
  apply (return_candles_count_and_grid RefClock.utc_epoch
           (Fixtures.serve (Some Fixtures.ordered_feed)) "BTC_USDT" 0 600 150
           Fixtures.ordered_feed true
           [make_raw_ticker (Fixtures.tick "1970-01-01T00:00:00" 1%float) 0;
            make_raw_ticker (Fixtures.tick "1970-01-01T00:05:00" 2%float) 300]).
  - reflexivity.
  - reflexivity.
  - eexists. split; [apply elem_of_cons; by left|]. simpl. lia.
  - lia.
  - lia.
Defined.

(** C3 (the code at the failing inputs): an unavailable feed ([None]) gives
    the empty result, but an empty tick list, or a grid point that precedes
    every retained tick, makes [items[-1]] raise [IndexError]: the guard
    [len(items) < 0] of line 85 can never skip the grid point. *)
Theorem return_candles_raises_on_missing_data
    (mktime_strptime : string -> result Z) (currency_pair : string) :
  (forall epoch_start epoch_end period,
     return_candles mktime_strptime (Fixtures.serve None) currency_pair
       epoch_start epoch_end period = Ok EmptyDict)
  /\ return_candles mktime_strptime (Fixtures.serve (Some [])) currency_pair
       0 600 150 = Raise IndexError
  /\ return_candles RefClock.utc_epoch
       (Fixtures.serve
          (Some [Fixtures.tick "1970-01-01T00:05:00" 2%float]))
       currency_pair 0 600 150 = Raise IndexError.
Proof. repeat split. Qed.

(** C9: [return_candles] returns the same outcome on a feed and on that feed
    with every stale tick (epoch strictly older than [epoch_start - 6h])
    removed; no retained tick is older than [epoch_start - 6h], and a tick
    exactly at [epoch_start - 6h] is retained. *)
Theorem return_candles_ignores_stale_ticks
    (mktime_strptime : string -> result Z)
    (get_ticks : string -> string -> option (list Tick))
    (currency_pair : string) (epoch_start epoch_end period : Z) :
  return_candles mktime_strptime
    (fun market interval =>
       drop_stale mktime_strptime epoch_start <$> get_ticks market interval)
    currency_pair epoch_start epoch_end period
  = return_candles mktime_strptime get_ticks currency_pair epoch_start
      epoch_end period
  /\ forall feed got raw,
       parse_tickers mktime_strptime epoch_start feed false [] = Ok (got, raw) ->
       Forall (fun r => epoch_start - 6 * 3600 <= date r) raw /\
       forall ticker, ticker ∈ feed ->
         mktime_strptime (tk_T ticker) = Ok (epoch_start - 6 * 3600) ->
         make_raw_ticker ticker (epoch_start - 6 * 3600) ∈ raw.
Proof.
  split.
  - unfold return_candles.
    destruct (get_ticks (str_replace "_" pair_delimiter currency_pair)
                "fiveMin") as [feed|]; [|done].
    simpl.
    pose proof (parse_tickers_drop_stale mktime_strptime epoch_start feed
                  false false []) as Heq.
    destruct (parse_tickers mktime_strptime epoch_start
                (drop_stale mktime_strptime epoch_start feed) false [])
      as [[g1 raw1]|e1];
      destruct (parse_tickers mktime_strptime epoch_start feed false [])
        as [[g2 raw2]|e2]; simpl in Heq; try done.
    + injection Heq as ->. done.
    + injection Heq as ->. done.
  - intros feed got raw Hparse.
    destruct (parse_tickers_retained _ _ _ _ _ _ _ Hparse)
      as (new & -> & Hall & Hin).
    split; [done|]. intros ticker Hticker Hep.
    apply (Hin ticker _ Hticker Hep). lia.
Qed.

(** A feed with a stale tick and a tick exactly six hours before the start. *)
Lemma return_candles_ignores_stale_ticks_witness :
  Forall (fun r => 86400 - 6 * 3600 <= date r)
    [make_raw_ticker (Fixtures.tick "1970-01-01T18:00:00" 2%float) 64800]
  /\ forall ticker,
       ticker ∈ [Fixtures.tick "1970-01-01T00:00:00" 1%float;
                 Fixtures.tick "1970-01-01T18:00:00" 2%float] ->
       RefClock.utc_epoch (tk_T ticker) = Ok (86400 - 6 * 3600) ->
       make_raw_ticker ticker (86400 - 6 * 3600)
       ∈ [make_raw_ticker (Fixtures.tick "1970-01-01T18:00:00" 2%float) 64800].
Proof.
  apply (proj2 (return_candles_ignores_stale_ticks RefClock.utc_epoch
                  (Fixtures.serve None) "BTC_USDT" 86400 90000 300)
           [Fixtures.tick "1970-01-01T00:00:00" 1%float;
            Fixtures.tick "1970-01-01T18:00:00" 2%float] true).
  reflexivity.
Defined.

(** ** Binary64 arithmetic *)

Lemma SFmul_comm (x y : spec_float) :
  SFmul prec emax x y = SFmul prec emax y x.
Proof.
  destruct x as [sx|sx| |sx mx ex], y as [sy|sy| |sy my ey]; simpl;
    rewrite ?(xorb_comm sx sy); try reflexivity.
  by rewrite Pos.mul_comm, Z.add_comm.
Qed.

Lemma float_mul_comm (x y : float) : (x * y)%float = (y * x)%float.
Proof. apply Prim2SF_inj. rewrite !mul_spec. apply SFmul_comm. Qed.

Lemma binary_round_aux_sign (m e : Z) (l : location) :
  SFnegative (binary_round_aux prec emax false m e l) = false.
Proof.
  unfold binary_round_aux.
  destruct (shr_fexp prec emax m e l) as [mrs' e'].
  destruct (shr_fexp prec emax _ e' loc_Exact) as [mrs'' e''].
  destruct (shr_m mrs''); [done| |done].
  by destruct (e'' <=? emax - prec).
Qed.

Lemma binary_normalize_sign (m e : Z) :
  0 <= m -> SFnegative (binary_normalize prec emax m e false) = false.
Proof.
  intros Hm. destruct m as [|p|p]; [done| |lia].
  unfold binary_normalize, binary_round.
  destruct (shl_align p e _) as [mz ez]. apply binary_round_aux_sign.
Qed.

Lemma iter_xO_pow (m d : positive) :
  Zpos (Pos.iter xO m d) = Zpos m * 2 ^ Zpos d.
Proof.
  induction d as [|d IH] using Pos.peano_ind.
  - simpl. lia.
  - rewrite Pos.iter_succ, Pos2Z.inj_succ, Z.pow_succ_r by lia.
    rewrite Pos2Z.inj_xO, IH. lia.
Qed.

Lemma shl_align_value (m : positive) (e e' : Z) :
  e' <= e -> Zpos (fst (shl_align m e e')) = Zpos m * 2 ^ (e - e').
Proof.
  intros Hle. unfold shl_align.
  destruct (e' - e) as [|d|d] eqn:Ed; simpl fst.
  - replace (e - e') with 0 by lia. simpl. lia.
  - lia.
  - rewrite iter_xO_pow. f_equal. f_equal. lia.
Qed.

Lemma digits2_pos_bounds (m : positive) :
  2 ^ (Zpos (digits2_pos m) - 1) <= Zpos m < 2 ^ Zpos (digits2_pos m).
Proof.
  induction m as [m IH|m IH|]; simpl digits2_pos.
  - rewrite Pos2Z.inj_succ, Z.pow_succ_r by lia.
    replace (Z.succ (Zpos (digits2_pos m)) - 1)
      with (Z.succ (Zpos (digits2_pos m) - 1)) by lia.
    rewrite Z.pow_succ_r by lia. lia.
  - rewrite Pos2Z.inj_succ, Z.pow_succ_r by lia.
    replace (Z.succ (Zpos (digits2_pos m)) - 1)
      with (Z.succ (Zpos (digits2_pos m) - 1)) by lia.
    rewrite Z.pow_succ_r by lia. lia.
  - simpl. lia.
Qed.

(** A smaller exponent means a smaller magnitude, for canonical mantissas. *)
Lemma bounded_exponent_order (m1 m2 : positive) (e1 e2 : Z) :
  bounded prec emax m1 e1 = true -> bounded prec emax m2 e2 = true ->
  e1 < e2 -> Zpos m1 < Zpos m2 * 2 ^ (e2 - e1).
Proof.
  unfold bounded, canonical_mantissa, fexp, emin, prec, emax.
  intros H1 H2 Hlt.
  apply andb_true_iff in H1 as [H1 _]. apply andb_true_iff in H2 as [H2 _].
  apply Z.eqb_eq in H1, H2.
  pose proof (digits2_pos_bounds m1) as [_ B1].
  pose proof (digits2_pos_bounds m2) as [B2 _].
  assert (Zpos (digits2_pos m1) <= 53) as D1 by lia.
  assert (Zpos (digits2_pos m2) = 53) as D2 by lia.
  rewrite D2 in B2.
  assert (Zpos m1 < 2 ^ 53) as U1.
  { eapply Z.lt_le_trans; [exact B1|]. apply Z.pow_le_mono_r; lia. }
  assert (2 ^ 1 <= 2 ^ (e2 - e1)) as P by (apply Z.pow_le_mono_r; lia).
  change (2 ^ (53 - 1)) with 4503599627370496 in B2.
  change (2 ^ 53) with 9007199254740992 in U1.
  change (2 ^ 1) with 2 in P. nia.
Qed.

Lemma SFsub_sign (a x : spec_float) :
  valid_binary a = true -> valid_binary x = true ->
  SFleb x a = true -> SFnegative (SFsub prec emax a x) = false.
Proof.
  intros Va Vx Hle.
  destruct a as [sa|sa| |sa ma ea], x as [sx|sx| |sx mx ex];
    try discriminate Hle;
    try (destruct sa, sx; (discriminate Hle || reflexivity)); 
    try (destruct sa; (discriminate Hle || reflexivity));
    try (destruct sx; (discriminate Hle || reflexivity)).
  simpl in Va, Vx. unfold SFsub.
  apply binary_normalize_sign.
  rewrite !shl_align_value by lia.
  unfold SFleb, SFcompare in Hle.
  destruct sa, sx; simpl cond_Zopp; try discriminate Hle.
  - destruct (Z.compare_spec ex ea) as [->|Hlt|Hgt]; try discriminate Hle.
    + rewrite Z.min_id, Z.sub_diag. rewrite Z.pow_0_r.
      destruct (Pos.compare_cont Eq mx ma) eqn:Ec; simpl in Hle;
        try discriminate Hle;
        first [apply Pos.compare_eq in Ec | apply Pos.compare_gt_iff in Ec];
        lia.
    + rewrite Z.min_l by lia. rewrite Z.sub_diag.
      pose proof (bounded_exponent_order _ _ _ _ Va Vx Hgt). rewrite Z.pow_0_r.
      lia.
  - pose proof (Z.pow_nonneg 2 (ea - Z.min ea ex) ltac:(lia)).
    pose proof (Z.pow_nonneg 2 (ex - Z.min ea ex) ltac:(lia)). nia.
  - destruct (Z.compare_spec ex ea) as [->|Hlt|Hgt]; try discriminate Hle.
    + rewrite Z.min_id, Z.sub_diag. rewrite Z.pow_0_r.
      destruct (Pos.compare_cont Eq mx ma) eqn:Ec; simpl in Hle;
        try discriminate Hle;
        first [apply Pos.compare_eq in Ec | apply Pos2Z.pos_lt_pos in Ec];
        lia.
    + rewrite Z.min_r by lia. rewrite Z.sub_diag.
      pose proof (bounded_exponent_order _ _ _ _ Vx Va Hlt). rewrite Z.pow_0_r.
      lia.
Qed.

Lemma float_sub_not_negative (a x : float) :
  (x <=? a)%float = true -> (a - x <? 0)%float = false.
Proof.
  rewrite leb_spec, ltb_spec, sub_spec. intros Hle.
  apply SFsub_sign; [apply Prim2SF_valid..|done].
Qed.

Lemma float_not_le_zero (a : float) :
  (a <=? 0)%float = false -> (0 <? a)%float = true \/ Prim2SF a = S754_nan.
Proof.
  rewrite leb_spec, ltb_spec.
  change (Prim2SF 0) with (S754_zero false).
  destruct (Prim2SF a) as [s|s| |s m e]; simpl; try (destruct s); auto; discriminate.
Qed.

Lemma float_nan_sub_not_negative (a x : float) :
  Prim2SF a = S754_nan -> (a - x <? 0)%float = false.
Proof.
  intros Ha. rewrite ltb_spec, sub_spec, Ha. reflexivity.
Qed.

(** ** Properties of [get_volume_from_history] *)

(** The loop adds the quantities of the records at or after the start of the
    window to the running volume, in the order of [history]. *)
Lemma volume_loop_sum (strptime_utc : string -> result Z)
    (epoch_candle_start : Z) (history : list TradeRecord) (epochs : list Z)
    (volume : float) :
  Forall2 (fun item epoch => item_epoch strptime_utc item = Ok epoch)
    history epochs ->
  volume_loop strptime_utc epoch_candle_start history volume
  = Ok (fold_left PrimFloat.add
          (quantities_since epoch_candle_start history epochs) volume).
Proof.
  intros Hall. revert volume.
  induction Hall as [|item epoch history epochs Hitem _ IH]; intros volume.
  - reflexivity.
  - simpl. rewrite Hitem. simpl. unfold quantities_since. simpl.
    destruct (epoch_candle_start <=? epoch); simpl; apply IH.
Qed.

(** C6 (counterexample): a record stamped 60 seconds after the clock reading
    lies outside the window [[now - 60 min, now]], yet its quantity is
    counted: the source checks the lower bound only. *)
Lemma future_trade_is_counted :
  get_volume_from_history RefClock.utc_epoch Fixtures.epoch_now
    [Fixtures.future_trade] 60 = Ok 5%float
  /\ volume_in_window RefClock.utc_epoch Fixtures.epoch_now 60
       [Fixtures.future_trade] 0%float = Ok 0%float
  /\ get_volume_from_history RefClock.utc_epoch Fixtures.epoch_now
       [Fixtures.future_trade] 60
     <> volume_in_window RefClock.utc_epoch Fixtures.epoch_now 60
          [Fixtures.future_trade] 0%float.
Proof.
  repeat split. vm_compute. intros H.
  apply (f_equal (fun r => match r with
                           | Ok x => PrimFloat.eqb x 0%float
                           | Raise _ => true
                           end)) in H.
  vm_compute in H. discriminate H.
Qed.

(** C6 (amended): for every trade history, in any order, whose timestamps
    parse, [get_volume_from_history] returns the sum, taken from [0.0] in the
    order of the list, of [Quantity] over exactly the records whose UTC epoch
    is at or after [now - window_minutes * 60] ([now] read at call time, lower
    bound inclusive, no upper bound); earlier records add nothing. *)
Theorem get_volume_from_history_sum (strptime_utc : string -> result Z)
    (epoch_now : Z) (history : list TradeRecord) (candle_size : Z)
    (epochs : list Z) :
  Forall2 (fun item epoch => item_epoch strptime_utc item = Ok epoch)
    history epochs ->
  get_volume_from_history strptime_utc epoch_now history candle_size
  = Ok (fold_left PrimFloat.add
          (quantities_since (epoch_now - candle_size * 60) history epochs)
          0%float).
Proof. intros Hall. unfold get_volume_from_history. by apply volume_loop_sum. Qed.

(** The example of the specification: a trade 30 minutes old and one 90
    minutes old, window of 60 minutes: only the first is counted. *)
Lemma get_volume_from_history_sum_witness :
  Forall2 (fun item epoch => item_epoch RefClock.utc_epoch item = Ok epoch)
    [Fixtures.recent_trade; Fixtures.old_trade] [4500; 900]
  /\ get_volume_from_history RefClock.utc_epoch Fixtures.epoch_now
       [Fixtures.recent_trade; Fixtures.old_trade] 60
     = Ok (fold_left PrimFloat.add
             (quantities_since (Fixtures.epoch_now - 60 * 60)
                [Fixtures.recent_trade; Fixtures.old_trade] [4500; 900])
             0%float)
  /\ fold_left PrimFloat.add
       (quantities_since (Fixtures.epoch_now - 60 * 60)
          [Fixtures.recent_trade; Fixtures.old_trade] [4500; 900])
       0%float
     = 5%float.
Proof.
  assert (Forall2
            (fun item epoch => item_epoch RefClock.utc_epoch item = Ok epoch)
            [Fixtures.recent_trade; Fixtures.old_trade] [4500; 900]) as Hparse
    by repeat constructor.
  split; [exact Hparse|]. split; [|reflexivity].
  exact (get_volume_from_history_sum RefClock.utc_epoch Fixtures.epoch_now
           [Fixtures.recent_trade; Fixtures.old_trade] 60 [4500; 900] Hparse).
Defined.

(** ** Properties of [get_buy_sell_all_amount] *)

(** C4 (counterexample): the call of the specification's example, with the
    pair in the internal form ['BTC_USDT'], does not return 0.495: the pair
    does not split at the delimiter ['-'] and the unpacking of line 170
    raises [ValueError]. *)
Lemma all_in_amount_underscore_pair_raises :
  get_buy_sell_all_amount (Fixtures.client 1) Fixtures.wallet_one_btc buy
    "BTC_USDT" 2 = Raise ValueError
  /\ get_buy_sell_all_amount (Fixtures.client 1) Fixtures.wallet_one_btc buy
       "BTC_USDT" 2 <> Ok 0x1.fae147ae147aep-2%float.
Proof. split; [reflexivity|]. vm_compute. discriminate. Qed.

(** C4 (amended): [get_buy_sell_all_amount] returns 0 when the action is
    [none] or the rate is 0.  Otherwise the pair must split at the exchange's
    delimiter ['-'] into exactly two symbols, else [ValueError] is raised.
     For a buy with the base symbol in the balances it returns
    [balances[base] / rate] net of the fee [amount * fee_percent / 100]; for
    a sell with the quote symbol in the balances, [balances[quote]] net of
    the same fee; with the symbol absent, 0; a pre-fee amount [<= 0] gives 0
    with no fee.  With balances [{'BTC': 1.0}], a buy at rate 2.0 and fee 1.0
    the result is 0.495 for the pair ['BTC-USDT'], the form in which
    [life_trade] passes ['BTC_USDT']. *)
Theorem get_buy_sell_all_amount_formula (self : BittrexClient)
    (wallet : gmap string float) (act : TradeState) (market : string)
    (rate : float) :
  (act = none ->
   get_buy_sell_all_amount self wallet act market rate = Ok 0%float)
  /\ ((rate =? 0)%float = true ->
      get_buy_sell_all_amount self wallet act market rate = Ok 0%float)
  /\ (forall base quote,
        (rate =? 0)%float = false ->
        str_split pair_delimiter market = [base; quote] ->
        (forall assets, act = buy -> wallet !! base = Some assets ->
           get_buy_sell_all_amount self wallet act market rate
           = Ok (net_of_fee (transaction_fee self) (assets / rate)%float))
        /\ (forall assets, act = sell -> wallet !! quote = Some assets ->
              get_buy_sell_all_amount self wallet act market rate
              = Ok (net_of_fee (transaction_fee self) assets))
        /\ (act = buy -> wallet !! base = None ->
            get_buy_sell_all_amount self wallet act market rate = Ok 0%float)
        /\ (act = sell -> wallet !! quote = None ->
            get_buy_sell_all_amount self wallet act market rate = Ok 0%float))
  /\ (act <> none -> (rate =? 0)%float = false ->
      length (str_split pair_delimiter market) <> 2%nat ->
      get_buy_sell_all_amount self wallet act market rate = Raise ValueError)
  /\ get_buy_sell_all_amount (Fixtures.client 1) Fixtures.wallet_one_btc buy
       "BTC-USDT" 2 = Ok 0x1.fae147ae147aep-2%float
  /\ get_buy_sell_all_amount (Fixtures.client 1) Fixtures.wallet_one_btc buy
       (str_replace "_" pair_delimiter "BTC_USDT") 2
     = Ok 0x1.fae147ae147aep-2%float.
Proof.
  assert (forall amount,
            deduct_fee self amount = net_of_fee (transaction_fee self) amount)
    as Hfee.
  { intros amount. unfold deduct_fee, net_of_fee.
    by rewrite (float_mul_comm (transaction_fee self) amount). }
  unfold get_buy_sell_all_amount.
  split; [|split; [|split; [|split; [|split]]]].
  - intros ->. reflexivity.
  - intros ->. by destruct (decide (act = none)).
  - intros base quote Hrate Hsplit. rewrite Hrate, Hsplit.
    repeat split.
    + intros assets -> Hbase. simpl. unfold all_assets_amount.
      by rewrite Hbase, Hfee.
    + intros assets -> Hquote. simpl. unfold all_assets_amount.
      rewrite Hquote, Hfee. by destruct (wallet !! base).
    + intros -> Hbase. simpl. unfold all_assets_amount. by rewrite Hbase.
    + intros -> Hquote. simpl. unfold all_assets_amount. rewrite Hquote.
      by destruct (wallet !! base).
  - intros Hact Hrate Hlen. rewrite Hrate.
    destruct (decide (act = none)); [done|].
    destruct (str_split pair_delimiter market) as [|s1 [|s2 [|s3 rest]]];
      simpl in Hlen; done.
  - reflexivity.
  - reflexivity.
Qed.

(** The example of the specification, through the general rule for a buy. *)
Lemma get_buy_sell_all_amount_formula_witness :
  get_buy_sell_all_amount (Fixtures.client 1) Fixtures.wallet_one_btc buy
    "BTC-USDT" 2
  = Ok (net_of_fee 1%float (1 / 2)%float).
Proof.
  apply (proj1 (proj1 (proj2 (proj2
           (get_buy_sell_all_amount_formula (Fixtures.client 1)
              Fixtures.wallet_one_btc buy "BTC-USDT" 2)))
           "BTC" "USDT" eq_refl eq_refl) 1%float eq_refl).
  reflexivity.
Defined.

(** C5 (counterexample): with a fee of 200 percent the all-in buy of one
    unit returns -1.0; with a fee of 50 percent and a balance of 1e308 the
    fee product overflows and the result is minus infinity. *)
Lemma all_in_amount_can_be_negative :
  (exists r,
     get_buy_sell_all_amount (Fixtures.client 200) Fixtures.wallet_one_btc
       buy "BTC-USDT" 1 = Ok r
     /\ (r <? 0)%float = true)
  /\ (exists r,
        get_buy_sell_all_amount (Fixtures.client 50)
          {[ "BTC"%string := 0x1.1ccf385ebc8ap+1023%float ]}
          buy "BTC-USDT" 1 = Ok r
        /\ (r <? 0)%float = true).
Proof. split; eexists; split; reflexivity. Qed.

(** C5 (amended): the value returned by [get_buy_sell_all_amount] is never
    negative provided that, whenever the pre-fee amount is positive, the fee
    amount computed at line 182, [transaction_fee * amount / 100], does not
    exceed it; on every early return the value is 0. *)
Theorem get_buy_sell_all_amount_not_negative (self : BittrexClient)
    (wallet : gmap string float) (act : TradeState) (market : string)
    (rate r : float) :
  get_buy_sell_all_amount self wallet act market rate = Ok r ->
  (forall symbol_1 symbol_2,
     str_split pair_delimiter market = [symbol_1; symbol_2] ->
     let amount := all_assets_amount wallet act symbol_1 symbol_2 rate in
     (0 <? amount)%float = true ->
     (transaction_fee self * amount / 100 <=? amount)%float = true) ->
  (r <? 0)%float = false.
Proof.
  unfold get_buy_sell_all_amount. intros Hret Hfee.
  destruct (decide (act = none)); [by injection Hret as <-|].
  destruct (rate =? 0)%float; [by injection Hret as <-|].
  destruct (str_split pair_delimiter market) as [|s1 [|s2 [|s3 rest]]];
    try discriminate Hret.
  specialize (Hfee s1 s2 eq_refl). simpl in Hfee.
  revert Hret Hfee. generalize (all_assets_amount wallet act s1 s2 rate).
  intros amount Hret Hfee. unfold deduct_fee in Hret.
  destruct (amount <=? 0)%float eqn:Hle; [by injection Hret as <-|].
  injection Hret as <-.
  destruct (float_not_le_zero amount Hle) as [Hpos|Hnan].
  - apply float_sub_not_negative. by apply Hfee.
  - by apply float_nan_sub_not_negative.
Qed.

(** The example of the specification: a fee of 1 percent on 0.5. *)
Lemma get_buy_sell_all_amount_not_negative_witness :
  (0x1.fae147ae147aep-2 <? 0)%float = false.
Proof.
  apply (get_buy_sell_all_amount_not_negative (Fixtures.client 1)
           Fixtures.wallet_one_btc buy "BTC-USDT" 2 0x1.fae147ae147aep-2).
  - reflexivity.
  - intros symbol_1 symbol_2 Hsplit. injection Hsplit as <- <-.
    intros amount _. reflexivity.
Defined.

(** ** Properties of [life_trade] *)

Section LifeTradeFacts.

Variable self : BittrexClient.
Variable bittrex : Bittrex.

Lemma confirmed_uuids_app (evs1 evs2 : list (loc * Event)) :
  confirmed_uuids (evs1 ++ evs2) = confirmed_uuids evs1 ++ confirmed_uuids evs2.
Proof. apply omap_app. Qed.

(** What the balance fetch and the all-in resolution change. *)
Lemma resolve_frame (st : State) (a : loc) (st1 : State) (r : option exn) :
  resolve self bittrex st a = (st1, r) ->
  actions st1 = actions st /\
  open_orders st1 = open_orders st /\
  (forall l, l <> a -> objs st1 l = objs st l) /\
  action (objs st1 a) = action (objs st a) /\
  trace st1
  = trace st ++ [(a, GetBalances (get_balances_result bittrex (history st)))].
Proof.
  unfold resolve. intros H.
  repeat case_match; simplify_eq/=; repeat split; try done.
  - intros l Hl. by rewrite fn_lookup_insert_ne.
  - by rewrite fn_lookup_insert.
Qed.

(** One pass of the loop body touches no other object, removes at most the
    loop variable, and extends the registry by exactly the identifiers of
    the orders the endpoint confirmed during the pass. *)
Lemma life_trade_body_frame (st : State) (a : loc) (st' : State)
    (r : option exn) :
  life_trade_body self bittrex st a = (st', r) ->
  (actions st' = actions st \/ list_remove a (actions st) = Ok (actions st')) /\
  (forall l, l <> a -> objs st' l = objs st l) /\
  exists evs,
    trace st' = trace st ++ evs /\
    Forall (fun ev : loc * Event => ev.1 = a) evs /\
    open_orders st' = open_orders st ++ confirmed_uuids evs.
Proof.
  unfold life_trade_body. intros H.
  destruct (resolve self bittrex st a) as [st1 r1] eqn:Hres.
  destruct (resolve_frame _ _ _ _ Hres) as (Hact & Hoo & Hobj & _ & Htr).
  assert (forall st2 r2, remove_action st1 a = (st2, r2) ->
            (actions st2 = actions st \/
             list_remove a (actions st) = Ok (actions st2)) /\
            (forall l, l <> a -> objs st2 l = objs st l) /\
            exists evs,
              trace st2 = trace st ++ evs /\
              Forall (fun ev : loc * Event => ev.1 = a) evs /\
              open_orders st2 = open_orders st ++ confirmed_uuids evs) as Hrm.
  { unfold remove_action. intros st2 r2 H2. rewrite Hact in H2.
    destruct (list_remove a (actions st)) as [l|e] eqn:El; simplify_eq/=.
    - split; [by right|]. split; [done|].
      eexists. split; [exact Htr|]. split; [by repeat constructor|].
      by rewrite Hoo, app_nil_r.
    - split; [by left|]. split; [done|].
      eexists. split; [exact Htr|]. split; [by repeat constructor|].
      by rewrite Hoo, app_nil_r. }
  destruct r1 as [e|].
  { simplify_eq. split; [by left|]. split; [done|].
    eexists. split; [exact Htr|]. split; [by repeat constructor|].
    by rewrite Hoo, app_nil_r. }
  destruct (decide (action (objs st1 a) = none)); [by eapply Hrm|].
  destruct (amount (objs st1 a) =? 0)%float; [by eapply Hrm|].
  unfold submit in H.
  destruct (action (objs st1 a)); [| |done].
  - destruct (success _) eqn:Hs; simplify_eq/=.
    + split; [by left|]. split; [done|]. rewrite Htr, <- app_assoc.
      eexists. split; [done|]. split; [by repeat constructor|].
      unfold confirmed_uuids. simpl. by rewrite Hs, Hoo.
    + split; [by left|]. split; [done|]. rewrite Htr, <- app_assoc.
      eexists. split; [done|]. split; [by repeat constructor|].
      unfold confirmed_uuids. simpl. by rewrite Hs, Hoo, app_nil_r.
  - destruct (success _) eqn:Hs; simplify_eq/=.
    + split; [by left|]. split; [done|]. rewrite Htr, <- app_assoc.
      eexists. split; [done|]. split; [by repeat constructor|].
      unfold confirmed_uuids. simpl. by rewrite Hs, Hoo.
    + split; [by left|]. split; [done|]. rewrite Htr, <- app_assoc.
      eexists. split; [done|]. split; [by repeat constructor|].
      unfold confirmed_uuids. simpl. by rewrite Hs, Hoo, app_nil_r.
Qed.

Lemma life_trade_body_length (st : State) (a : loc) (st' : State)
    (r : option exn) :
  life_trade_body self bittrex st a = (st', r) ->
  (length (actions st') <= length (actions st))%nat.
Proof.
  intros H. destruct (life_trade_body_frame _ _ _ _ H) as ([->|Hrm] & _); [done|].
  apply list_remove_length in Hrm. lia.
Qed.

(** The loop ends before its fuel does, and the registry grows by exactly
    the identifiers the endpoint confirmed. *)
Lemma life_trade_loop_registry (fuel i : nat) (st : State) :
  (length (actions st) <= fuel + i)%nat ->
  exists st' r evs,
    life_trade_loop self bittrex fuel i st = Some (st', r) /\
    trace st' = trace st ++ evs /\
    open_orders st' = open_orders st ++ confirmed_uuids evs.
Proof.
  revert i st. induction fuel as [|fuel IH]; intros i st Hlen.
  - simpl. rewrite lookup_ge_None_2 by lia.
    exists st, None, []. by rewrite !app_nil_r.
  - simpl. destruct (actions st !! i) as [a|] eqn:Ha.
    + destruct (life_trade_body self bittrex st a) as [st1 r1] eqn:Hbody.
      destruct (life_trade_body_frame _ _ _ _ Hbody)
        as (_ & _ & evs1 & Htr1 & _ & Hoo1).
      pose proof (life_trade_body_length _ _ _ _ Hbody) as Hlen1.
      destruct r1 as [e|].
      * by exists st1, (Some e), evs1.
      * destruct (IH (S i) st1 ltac:(lia)) as (st' & r & evs & Hloop & Htr & Hoo).
        exists st', r, (evs1 ++ evs). split; [done|].
        rewrite Htr, Htr1, Hoo, Hoo1, confirmed_uuids_app.
        by rewrite !app_assoc.
    + exists st, None, []. by rewrite !app_nil_r.
Qed.

(** An object that occurs in the list only at indices the iterator has
    already passed is never bound to the loop variable again: it stays in
    the list, unchanged, and no call is made for it. *)
Lemma life_trade_loop_passed (b : loc) (fuel i : nat) (st : State) :
  b ∈ actions st -> b ∉ drop i (actions st) ->
  (length (actions st) <= fuel + i)%nat ->
  exists st' r evs,
    life_trade_loop self bittrex fuel i st = Some (st', r) /\
    b ∈ actions st' /\ objs st' b = objs st b /\
    trace st' = trace st ++ evs /\
    Forall (fun ev : loc * Event => ev.1 <> b) evs.
Proof.
  revert i st. induction fuel as [|fuel IH]; intros i st Hin Hnot Hlen.
  - simpl. rewrite lookup_ge_None_2 by lia.
    exists st, None, []. by rewrite app_nil_r.
  - simpl. destruct (actions st !! i) as [a|] eqn:Ha.
    + assert (a <> b) as Hab.
      { intros ->. apply Hnot. apply list_elem_of_lookup. exists 0%nat.
        by rewrite lookup_drop, Nat.add_0_r. }
      destruct (life_trade_body self bittrex st a) as [st1 r1] eqn:Hbody.
      destruct (life_trade_body_frame _ _ _ _ Hbody)
        as (Hact & Hobj & evs1 & Htr1 & Htag1 & _).
      pose proof (life_trade_body_length _ _ _ _ Hbody) as Hlen1.
      assert (Forall (fun ev : loc * Event => ev.1 <> b) evs1) as Htag1'.
      { eapply Forall_impl; [exact Htag1|]. simpl. by intros ev ->. }
      assert (b ∈ actions st1 /\ b ∉ drop (S i) (actions st1)) as [Hin1 Hnot1].
      { destruct Hact as [->|Hrm].
        - split; [done|]. intros Hd. apply Hnot.
          apply list_elem_of_lookup in Hd as (j & Hj).
          rewrite lookup_drop in Hj. apply list_elem_of_lookup.
          exists (S j). rewrite lookup_drop. rewrite <- Hj. f_equal. lia.
        - split; [by eapply list_remove_other|].
          rewrite (list_remove_drop _ _ _ _ Hrm Ha). intros Hd. apply Hnot.
          apply list_elem_of_lookup in Hd as (j & Hj).
          rewrite lookup_drop in Hj. apply list_elem_of_lookup.
          exists (S (S j)). rewrite lookup_drop. rewrite <- Hj. f_equal. lia. }
      destruct r1 as [e|].
      * exists st1, (Some e), evs1. repeat split; try done.
        apply Hobj. done.
      * destruct (IH (S i) st1 Hin1 Hnot1 ltac:(lia))
          as (st' & r & evs & Hloop & Hin' & Hobj' & Htr & Htag).
        exists st', r, (evs1 ++ evs). repeat split; try done.
        -- rewrite Hobj'. by apply Hobj.
        -- by rewrite Htr, Htr1, app_assoc.
        -- by apply Forall_app.
    + exists st, None, []. by rewrite app_nil_r.
Qed.

End LifeTradeFacts.

(** C7 (the code at the failing input): of two [none] actions only the first
    is removed.  Removing it moves the second to index 0 while the iterator
    goes on to index 1, so the loop ends and the second [none] action is
    still in the returned list.  No order call is issued for either. *)
Theorem life_trade_keeps_second_noop (self : BittrexClient)
    (bittrex : Bittrex) :
  exists st',
    life_trade self bittrex Fixtures.two_noops = Some (st', None) /\
    actions st' = [1%nat] /\
    action (objs st' 1%nat) = none /\
    Forall (fun ev : loc * Event => is_order ev.2 = false) (trace st').
Proof.
  eexists. split; [reflexivity|]. simpl. repeat split. by repeat constructor.
Qed.

(** C8: over a whole run of [life_trade], which always ends, the registry
    [open_orders] grows by exactly the identifiers of the order calls that
    the endpoint answered with [success == true], in the order of the calls.
    For one action with a buy or sell and a non-zero amount: on
    [success == true] the identifier is appended, on [success == false]
    nothing is recorded, the list and the action object stay as they were
    after the amount was resolved, and in both cases the loop goes on with
    the next index. *)
Theorem open_orders_only_on_success (self : BittrexClient)
    (bittrex : Bittrex) :
  (forall st, exists st' r evs,
     life_trade self bittrex st = Some (st', r) /\
     trace st' = trace st ++ evs /\
     open_orders st' = open_orders st ++ confirmed_uuids evs)
  /\ forall fuel i st a st1 ev,
       actions st !! i = Some a ->
       resolve self bittrex st a = (st1, None) ->
       action (objs st1 a) <> none ->
       (amount (objs st1 a) =? 0)%float = false ->
       order_event bittrex st1 a = Some ev ->
       life_trade_loop self bittrex (S fuel) i st
       = life_trade_loop self bittrex fuel (S i)
           (match confirmed_uuid ev with
            | Some id =>
                {| objs := objs st1; actions := actions st;
                   open_orders := open_orders st ++ [id];
                   trace := trace st1 ++ [(a, ev)] |}
            | None =>
                {| objs := objs st1; actions := actions st;
                   open_orders := open_orders st;
                   trace := trace st1 ++ [(a, ev)] |}
            end).
Proof.
  split.
  - intros st. apply life_trade_loop_registry. lia.
  - intros fuel i st a st1 ev Ha Hres Hact Hamt Hev.
    destruct (resolve_frame _ _ _ _ _ _ Hres) as (Hl & Hoo & _).
    simpl. rewrite Ha. unfold life_trade_body. rewrite Hres.
    destruct (decide (action (objs st1 a) = none)); [done|].
    rewrite Hamt. unfold submit. unfold order_event in Hev.
    destruct (action (objs st1 a)); [| |done]; injection Hev as <-; simpl;
      destruct (success _); simpl;
      unfold append_order, record_event; simpl; by rewrite Hl, Hoo.
Qed.

(** A rejected sell: nothing is recorded and the loop moves on. *)
Lemma open_orders_only_on_success_witness :
  life_trade_loop (Fixtures.client 1) Fixtures.endpoint 1 0
    (Fixtures.state_of Fixtures.objects [2%nat])
  = life_trade_loop (Fixtures.client 1) Fixtures.endpoint 0 1
      {| objs := Fixtures.objects; actions := [2%nat]; open_orders := [];
         trace :=
           [(2%nat, GetBalances [("BTC"%string, 1%float)]);
            (2%nat,
             SellLimit "BTC-USDT" 1 2
               {| success := false; message := "INSUFFICIENT_FUNDS";
                  uuid := "" |})] |}.
Proof.
  apply (proj2 (open_orders_only_on_success (Fixtures.client 1)
                  Fixtures.endpoint)
           0%nat 0%nat (Fixtures.state_of Fixtures.objects [2%nat]) 2%nat
           {| objs := Fixtures.objects; actions := [2%nat]; open_orders := [];
              trace := [(2%nat, GetBalances [("BTC"%string, 1%float)])] |}
           (SellLimit "BTC-USDT" 1 2
              {| success := false; message := "INSUFFICIENT_FUNDS";
                 uuid := "" |})).
  - reflexivity.
  - reflexivity.
  - discriminate.
  - reflexivity.
  - reflexivity.
Defined.

(** C10: when the pass for the action [a] at index [i] removes it (its
    action is [none], or its resolved amount is 0), the action [b] that
    followed it, a different object not listed again further on, is never
    bound to the loop variable in that invocation: the run ends with [b]
    still in the list, the object [b] unchanged (no all-in resolution), and
    no call to the endpoint (balance fetch, buy or sell) made for it. *)
Theorem removal_skips_next_action (self : BittrexClient) (bittrex : Bittrex)
    (fuel i : nat) (st : State) (a b : loc) (st1 : State) :
  actions st !! i = Some a ->
  actions st !! S i = Some b ->
  a <> b ->
  b ∉ drop (S (S i)) (actions st) ->
  resolve self bittrex st a = (st1, None) ->
  action (objs st1 a) = none \/ (amount (objs st1 a) =? 0)%float = true ->
  (length (actions st) <= fuel + i)%nat ->
  exists st' r evs,
    life_trade_loop self bittrex fuel i st = Some (st', r) /\
    b ∈ actions st' /\
    objs st' b = objs st b /\
    trace st' = trace st ++ evs /\
    Forall (fun ev : loc * Event => ev.1 <> b) evs.
Proof.
  intros Ha Hb Hab Hnot Hres Hnoop Hlen.
  destruct fuel as [|fuel].
  { apply lookup_lt_Some in Ha. lia. }
  destruct (resolve_frame _ _ _ _ _ _ Hres) as (Hl & Hoo & Hobj & _ & Htr).
  destruct (list_remove_elem a (actions st)) as [l' Hrm].
  { by eapply list_elem_of_lookup_2. }
  assert (life_trade_body self bittrex st a
          = ({| objs := objs st1; actions := l';
                open_orders := open_orders st1; trace := trace st1 |}, None))
    as Hbody.
  { unfold life_trade_body. rewrite Hres.
    assert (remove_action st1 a
            = ({| objs := objs st1; actions := l';
                  open_orders := open_orders st1; trace := trace st1 |}, None))
      as Hremove by (unfold remove_action; by rewrite Hl, Hrm).
    destruct (decide (action (objs st1 a) = none)); [done|].
    destruct Hnoop as [Hnone|Hzero]; [done|]. by rewrite Hzero. }
  simpl. rewrite Ha, Hbody.
  destruct (life_trade_loop_passed self bittrex b fuel (S i)
              {| objs := objs st1; actions := l';
                 open_orders := open_orders st1; trace := trace st1 |})
    as (st' & r & evs & Hloop & Hin & Hobj' & Htr' & Htag); simpl.
  - eapply list_remove_other; [exact Hrm|done|].
    by eapply list_elem_of_lookup_2.
  - by rewrite (list_remove_drop _ _ _ _ Hrm Ha).
  - apply list_remove_length in Hrm. lia.
  - exists st', r, ((a, GetBalances (get_balances_result bittrex (history st)))
                    :: evs).
    split; [done|]. split; [done|]. split; [|split].
    + rewrite Hobj'. simpl. by apply Hobj.
    + rewrite Htr'. simpl. rewrite Htr. by rewrite <- app_assoc.
    + by constructor.
Qed.

(** A [none] action followed by a buy and a sell: the buy is skipped. *)
Lemma removal_skips_next_action_witness :
  exists st' r evs,
    life_trade_loop (Fixtures.client 1) Fixtures.endpoint 3 0
      Fixtures.noop_buy_sell = Some (st', r) /\
    1%nat ∈ actions st' /\
    objs st' 1%nat = objs Fixtures.noop_buy_sell 1%nat /\
    trace st' = trace Fixtures.noop_buy_sell ++ evs /\
    Forall (fun ev : loc * Event => ev.1 <> 1%nat) evs.
Proof.
  apply (removal_skips_next_action (Fixtures.client 1) Fixtures.endpoint
           3 0 Fixtures.noop_buy_sell 0%nat 1%nat
           (record_event Fixtures.noop_buy_sell 0%nat
              (GetBalances [("BTC"%string, 1%float)]))).
  - reflexivity.
  - reflexivity.
  - discriminate.
  - simpl. intros H. apply elem_of_cons in H as [H|H]; [discriminate H|].
    inversion H.
  - reflexivity.
  - left. reflexivity.
  - simpl. lia.
Defined.

(** ** Further properties of [return_candles] *)

Section ReturnCandlesMore.

Variable mktime_strptime : string -> result Z.

(** The parsing loop is a comprehension over the feed, and its flag records
    whether any tick, stale or not, lies at or before [epoch_start]. *)
Lemma parse_tickers_spec (epoch_start : Z) (feed : list Tick) (got : bool)
    (acc : list raw_ticker) (got' : bool) (raw : list raw_ticker) :
  parse_tickers mktime_strptime epoch_start feed got acc = Ok (got', raw) ->
  raw = acc ++ omap (retain mktime_strptime epoch_start) feed /\
  (got' = true <->
   got = true \/
   exists ticker epoch,
     ticker ∈ feed /\ mktime_strptime (tk_T ticker) = Ok epoch /\
     epoch <= epoch_start).
Proof.
  revert got acc. induction feed as [|ticker feed IH]; intros got acc H.
  - simpl in H. injection H as <- <-. rewrite app_nil_r. split; [done|].
    split; [by left|]. intros [?|(tk & ep & Hin & _)]; [done|inversion Hin].
  - simpl in H. unfold retain at 1. simpl.
    destruct (mktime_strptime (tk_T ticker)) as [epoch|e] eqn:Ep; simpl in H;
      [|done].
    assert (forall got0 acc0,
              parse_tickers mktime_strptime epoch_start feed got0 acc0
              = Ok (got', raw) ->
              got0 = (if epoch <=? epoch_start then true else got) ->
              (got' = true <->
               got = true \/
               exists tk ep,
                 tk ∈ ticker :: feed /\ mktime_strptime (tk_T tk) = Ok ep /\
                 ep <= epoch_start)) as Hflag.
    { intros got0 acc0 H0 ->. destruct (IH _ _ H0) as [_ ->]. split.
      - intros [Hg|(tk & ep & Hin & Hep & Hle)].
        + destruct (Z.leb_spec epoch epoch_start); [|by left].
          right. exists ticker, epoch. split; [apply elem_of_cons; by left|done].
        + right. exists tk, ep. split; [apply elem_of_cons; by right|done].
      - intros [->|(tk & ep & Hin & Hep & Hle)].
        + left. by destruct (epoch <=? epoch_start).
        + apply elem_of_cons in Hin as [->|Hin].
          * rewrite Ep in Hep. injection Hep as <-. left.
            by destruct (Z.leb_spec epoch epoch_start); [|lia].
          * right. by exists tk, ep. }
    destruct (epoch <? epoch_start - 6 * 3600).
    + split; [by destruct (IH _ _ H) as [-> _]|]. by eapply Hflag.
    + split; [|by eapply Hflag].
      destruct (IH _ _ H) as [-> _]. by rewrite <- app_assoc.
Qed.

(** What the interpolation loop adds to [out_tickers]: for each grid point
    the copy of a tick of [raw_tickers] that is not later than it. *)
Lemma interpolate_provenance (raw : list raw_ticker) (grid : list Z)
    (acc out : list raw_ticker) :
  interpolate raw grid acc = Ok out ->
  forall c, c ∈ out ->
    c ∈ acc \/
    exists t item,
      t ∈ grid /\ item ∈ raw /\ date item <= t /\ c = set_date item t.
Proof.
  revert acc. induction grid as [|t grid IH]; intros acc H c Hc.
  - simpl in H. injection H as <-. by left.
  - simpl in H. rewrite negative_length_is_dead in H. unfold last_item in H.
    destruct (last (List.filter (fun e => date e <=? t) raw)) as [item|] eqn:El;
      [|done].
    simpl in H. destruct (IH _ H c Hc) as [Hacc|(t' & it & Ht' & Hit & Hle & ->)].
    + apply elem_of_app in Hacc as [Hacc|Hnew]; [by left|].
      apply list_elem_of_singleton in Hnew as ->. right.
      destruct (last_filter_split _ _ _ El) as (l1 & l2 & -> & Hd & _).
      exists t, item. split; [apply elem_of_cons; by left|].
      split; [apply elem_of_app; right; apply elem_of_cons; by left|].
      split; [by apply Z.leb_le|done].
    + right. exists t', it. split; [apply elem_of_cons; by right|done].
Qed.

End ReturnCandlesMore.

(** X1: the raw ticks that [return_candles] works on are, in the order of
    the feed, exactly the ticks whose epoch is not older than
    [epoch_start - 6h], each converted field by field with
    [weightedAverage] set to 0.0. *)
Theorem parse_tickers_keeps_recent_in_order
    (mktime_strptime : string -> result Z) (epoch_start : Z)
    (feed : list Tick) (got : bool) (raw : list raw_ticker) :
  parse_tickers mktime_strptime epoch_start feed false [] = Ok (got, raw) ->
  raw = omap (retain mktime_strptime epoch_start) feed.
Proof. intros H. by destruct (parse_tickers_spec _ _ _ _ _ _ _ H) as [-> _]. Qed.

(** A stale tick followed by two recent ones. *)
Lemma parse_tickers_keeps_recent_in_order_witness :
  [make_raw_ticker (Fixtures.tick "1970-01-01T18:00:00" 2%float) 64800;
   make_raw_ticker (Fixtures.tick "1970-01-02T00:00:00" 3%float) 86400]
  = omap (retain RefClock.utc_epoch 86400)
      [Fixtures.tick "1970-01-01T00:00:00" 1%float;
       Fixtures.tick "1970-01-01T18:00:00" 2%float;
       Fixtures.tick "1970-01-02T00:00:00" 3%float].
Proof.
  apply (parse_tickers_keeps_recent_in_order RefClock.utc_epoch 86400
           [Fixtures.tick "1970-01-01T00:00:00" 1%float;
            Fixtures.tick "1970-01-01T18:00:00" 2%float;
            Fixtures.tick "1970-01-02T00:00:00" 3%float] true).
  reflexivity.
Defined.

(** X2: the flag [got_min_epoch_ticker] ends up set exactly when some tick
    of the feed, stale ones included, has an epoch at or before
    [epoch_start]. *)
Theorem got_min_epoch_ticker_flag
    (mktime_strptime : string -> result Z) (epoch_start : Z)
    (feed : list Tick) (got : bool) (raw : list raw_ticker) :
  parse_tickers mktime_strptime epoch_start feed false [] = Ok (got, raw) ->
  got = true <->
  exists ticker epoch,
    ticker ∈ feed /\ mktime_strptime (tk_T ticker) = Ok epoch /\
    epoch <= epoch_start.
Proof.
  intros H. destruct (parse_tickers_spec _ _ _ _ _ _ _ H) as [_ ->].
  split; [intros [?|?]; done|by right].
Qed.

(** A feed whose only tick at or before the start is stale: the flag is set
    although nothing at or before the start is retained. *)
Lemma got_min_epoch_ticker_flag_witness :
  true = true <->
  exists ticker epoch,
    ticker ∈ [Fixtures.tick "1970-01-01T00:00:00" 1%float;
              Fixtures.tick "1970-01-02T00:05:00" 3%float] /\
    RefClock.utc_epoch (tk_T ticker) = Ok epoch /\ epoch <= 86400.
Proof.
  apply (got_min_epoch_ticker_flag RefClock.utc_epoch 86400
           [Fixtures.tick "1970-01-01T00:00:00" 1%float;
            Fixtures.tick "1970-01-02T00:05:00" 3%float] true
           [make_raw_ticker (Fixtures.tick "1970-01-02T00:05:00" 3%float)
              86700]).
  reflexivity.
Defined.

(** X3: on a non-empty grid ([period > 0], [epoch_start < epoch_end]) and a
    feed that parses, [return_candles] returns a candle list exactly when a
    retained tick lies at or before [epoch_start]; otherwise it raises
    [IndexError]. *)
Theorem return_candles_returns_iff_covered
    (mktime_strptime : string -> result Z)
    (get_ticks : string -> string -> option (list Tick))
    (currency_pair : string) (epoch_start epoch_end period : Z)
    (feed : list Tick) (got : bool) (raw : list raw_ticker) :
  get_ticks (str_replace "_" pair_delimiter currency_pair) "fiveMin"
    = Some feed ->
  parse_tickers mktime_strptime epoch_start feed false [] = Ok (got, raw) ->
  0 < period -> epoch_start < epoch_end ->
  ((exists r, r ∈ raw /\ date r <= epoch_start) ->
   exists out,
     return_candles mktime_strptime get_ticks currency_pair epoch_start
       epoch_end period = Ok (OutTickers out))
  /\ ((forall r, r ∈ raw -> epoch_start < date r) ->
      return_candles mktime_strptime get_ticks currency_pair epoch_start
        epoch_end period = Raise IndexError).
Proof.
  intros Hfeed Hparse Hperiod Hlt. split.
  - intros Hcover.
    destruct (return_candles_covered mktime_strptime get_ticks currency_pair
                epoch_start epoch_end period feed got raw Hfeed Hparse Hcover
                Hperiod) as (out & Hret & _).
    by exists out.
  - intros Hnone. unfold return_candles. rewrite Hfeed, Hparse. simpl.
    rewrite range_positive_step by done. simpl.
    assert (exists n, Z.to_nat (range_length epoch_start epoch_end period) = S n)
      as [n ->].
    { unfold range_length. destruct (Z.ltb_spec epoch_start epoch_end); [|lia].
      pose proof (Z.div_pos (epoch_end - epoch_start - 1) period ltac:(lia)
                    Hperiod).
      exists (Z.to_nat ((epoch_end - epoch_start - 1) / period)). lia. }
    simpl seq. rewrite fmap_cons.
    rewrite (interpolate_uncovered raw); [done|].
    intros r Hr. specialize (Hnone r Hr). lia.
Qed.

(** The only tick of the feed comes after the start: [IndexError]. *)
Lemma return_candles_returns_iff_covered_witness :
  ((exists r,
      r ∈ [make_raw_ticker (Fixtures.tick "1970-01-01T00:05:00" 2%float) 300]
      /\ date r <= 0) ->
   exists out,
     return_candles RefClock.utc_epoch
       (Fixtures.serve (Some [Fixtures.tick "1970-01-01T00:05:00" 2%float]))
       "BTC_USDT" 0 600 150 = Ok (OutTickers out))
  /\ ((forall r,
         r ∈ [make_raw_ticker (Fixtures.tick "1970-01-01T00:05:00" 2%float) 300]
         -> 0 < date r) ->
      return_candles RefClock.utc_epoch
        (Fixtures.serve (Some [Fixtures.tick "1970-01-01T00:05:00" 2%float]))
        "BTC_USDT" 0 600 150 = Raise IndexError).
Proof.
  apply (return_candles_returns_iff_covered RefClock.utc_epoch
           (Fixtures.serve (Some [Fixtures.tick "1970-01-01T00:05:00" 2%float]))
           "BTC_USDT" 0 600 150
           [Fixtures.tick "1970-01-01T00:05:00" 2%float] false).
  - reflexivity.
  - reflexivity.
  - lia.
  - lia.
Defined.

(** X4: no candle is made up and none looks ahead: every candle that
    [return_candles] returns is the copy of a tick of the feed whose epoch is
    not older than [epoch_start - 6h] and not later than the candle's own
    timestamp, with only the timestamp replaced. *)
Theorem return_candles_no_look_ahead
    (mktime_strptime : string -> result Z)
    (get_ticks : string -> string -> option (list Tick))
    (currency_pair : string) (epoch_start epoch_end period : Z)
    (out : list raw_ticker) :
  return_candles mktime_strptime get_ticks currency_pair epoch_start
    epoch_end period = Ok (OutTickers out) ->
  forall c, c ∈ out ->
    exists feed ticker epoch,
      get_ticks (str_replace "_" pair_delimiter currency_pair) "fiveMin"
        = Some feed /\
      ticker ∈ feed /\
      mktime_strptime (tk_T ticker) = Ok epoch /\
      epoch_start - 6 * 3600 <= epoch <= date c /\
      c = set_date (make_raw_ticker ticker epoch) (date c).
Proof.
  unfold return_candles. intros H c Hc.
  destruct (get_ticks (str_replace "_" pair_delimiter currency_pair) "fiveMin")
    as [feed|]; [|done].
  destruct (parse_tickers mktime_strptime epoch_start feed false [])
    as [[got raw]|e] eqn:Hparse; simpl in H; [|done].
  destruct (range epoch_start epoch_end period) as [grid|e]; simpl in H;
    [|done].
  destruct (interpolate raw grid []) as [out'|e] eqn:Hint; simpl in H; [|done].
  injection H as <-.
  destruct (interpolate_provenance raw grid [] out' Hint c Hc)
    as [Hnil|(t & item & Ht & Hitem & Hle & ->)]; [inversion Hnil|].
  destruct (parse_tickers_spec _ _ _ _ _ _ _ Hparse) as [Hraw _].
  simpl in Hraw. rewrite Hraw in Hitem.
  apply list_elem_of_omap in Hitem as (ticker & Hticker & Hretain).
  unfold retain in Hretain.
  destruct (mktime_strptime (tk_T ticker)) as [epoch|e] eqn:Ep; [|done].
  destruct (Z.ltb_spec epoch (epoch_start - 6 * 3600)); [done|].
  injection Hretain as <-. exists feed, ticker, epoch. simpl in *.
  repeat split; try done; lia.
Qed.

(** The last candle of the forward-fill example copies the tick at t=300. *)
Lemma return_candles_no_look_ahead_witness :
  exists feed ticker epoch,
    Fixtures.serve (Some Fixtures.ordered_feed)
      (str_replace "_" pair_delimiter "BTC_USDT") "fiveMin" = Some feed /\
    ticker ∈ feed /\
    RefClock.utc_epoch (tk_T ticker) = Ok epoch /\
    0 - 6 * 3600 <= epoch <= 450 /\
    set_date (make_raw_ticker (Fixtures.tick "1970-01-01T00:05:00" 2%float) 300)
      450
    = set_date (make_raw_ticker ticker epoch) 450.
Proof.
  apply (return_candles_no_look_ahead RefClock.utc_epoch
           (Fixtures.serve (Some Fixtures.ordered_feed)) "BTC_USDT" 0 600 150
           [set_date (make_raw_ticker
                        (Fixtures.tick "1970-01-01T00:00:00" 1%float) 0) 0;
            set_date (make_raw_ticker
                        (Fixtures.tick "1970-01-01T00:00:00" 1%float) 0) 150;
            set_date (make_raw_ticker
                        (Fixtures.tick "1970-01-01T00:05:00" 2%float) 300) 300;
            set_date (make_raw_ticker
                        (Fixtures.tick "1970-01-01T00:05:00" 2%float) 300) 450]
           eq_refl
           (set_date (make_raw_ticker
                        (Fixtures.tick "1970-01-01T00:05:00" 2%float) 300) 450)).
  repeat (apply elem_of_cons; first [by left | right]).
Defined.

(** X5: degenerate grids.  On a feed that parses, a zero [period] makes
    [range] raise [ValueError]; an empty range ([epoch_end <= epoch_start]
    with a positive period, or a negative period with
    [epoch_start <= epoch_end]) gives an empty candle list, whatever the
    ticks, even none. *)
Theorem return_candles_degenerate_grid
    (mktime_strptime : string -> result Z)
    (get_ticks : string -> string -> option (list Tick))
    (currency_pair : string) (epoch_start epoch_end period : Z)
    (feed : list Tick) (got : bool) (raw : list raw_ticker) :
  get_ticks (str_replace "_" pair_delimiter currency_pair) "fiveMin"
    = Some feed ->
  parse_tickers mktime_strptime epoch_start feed false [] = Ok (got, raw) ->
  (period = 0 ->
   return_candles mktime_strptime get_ticks currency_pair epoch_start
     epoch_end period = Raise ValueError)
  /\ (0 < period -> epoch_end <= epoch_start ->
      return_candles mktime_strptime get_ticks currency_pair epoch_start
        epoch_end period = Ok (OutTickers []))
  /\ (period < 0 -> epoch_start <= epoch_end ->
      return_candles mktime_strptime get_ticks currency_pair epoch_start
        epoch_end period = Ok (OutTickers [])).
Proof.
  intros Hfeed Hparse. unfold return_candles. rewrite Hfeed, Hparse. simpl.
  unfold range, range_length. repeat split.
  - intros ->. reflexivity.
  - intros Hp Hle. destruct (Z.eqb_spec period 0); [lia|].
    destruct (Z.ltb_spec 0 period); [|lia].
    by destruct (Z.ltb_spec epoch_start epoch_end); [lia|].
  - intros Hp Hle. destruct (Z.eqb_spec period 0); [lia|].
    destruct (Z.ltb_spec 0 period); [lia|].
    by destruct (Z.ltb_spec epoch_end epoch_start); [lia|].
Qed.

(** An empty tick list: no exception as long as the grid is empty. *)
Lemma return_candles_degenerate_grid_witness :
  (150 = 0 ->
   return_candles RefClock.utc_epoch (Fixtures.serve (Some [])) "BTC_USDT"
     600 600 150 = Raise ValueError)
  /\ (0 < 150 -> 600 <= 600 ->
      return_candles RefClock.utc_epoch (Fixtures.serve (Some [])) "BTC_USDT"
        600 600 150 = Ok (OutTickers []))
  /\ (150 < 0 -> 600 <= 600 ->
      return_candles RefClock.utc_epoch (Fixtures.serve (Some [])) "BTC_USDT"
        600 600 150 = Ok (OutTickers [])).
Proof.
  apply (return_candles_degenerate_grid RefClock.utc_epoch
           (Fixtures.serve (Some [])) "BTC_USDT" 600 600 150 [] false []).
  - reflexivity.
  - reflexivity.
Defined.

(** X6: one timestamp that does not parse aborts the whole call: when the
    ticks before it parse, [return_candles] raises the parser's exception for
    that tick, whatever the grid and the other ticks, and even when the tick
    would have been stale. *)
Theorem return_candles_propagates_parse_error
    (mktime_strptime : string -> result Z)
    (get_ticks : string -> string -> option (list Tick))
    (currency_pair : string) (epoch_start epoch_end period : Z)
    (before after : list Tick) (ticker : Tick) (e : exn) :
  get_ticks (str_replace "_" pair_delimiter currency_pair) "fiveMin"
    = Some (before ++ ticker :: after) ->
  Forall (fun t => exists epoch, mktime_strptime (tk_T t) = Ok epoch) before ->
  mktime_strptime (tk_T ticker) = Raise e ->
  return_candles mktime_strptime get_ticks currency_pair epoch_start
    epoch_end period = Raise e.
Proof.
  intros Hfeed Hbefore Hbad. unfold return_candles. rewrite Hfeed.
  assert (forall got acc,
            parse_tickers mktime_strptime epoch_start
              (before ++ ticker :: after) got acc = Raise e) as ->; [|done].
  clear Hfeed.
  induction Hbefore as [|t before [epoch Ht] _ IH]; intros got acc.
  - simpl. by rewrite Hbad.
  - simpl. rewrite Ht. simpl.
    destruct (epoch <? epoch_start - 6 * 3600); apply IH.
Qed.

(** A well-formed tick followed by one with a space instead of the [T]. *)
Lemma return_candles_propagates_parse_error_witness :
  return_candles RefClock.utc_epoch
    (Fixtures.serve
       (Some [Fixtures.tick "1970-01-01T00:00:00" 1%float;
              Fixtures.tick "1970-01-01 00:05:00" 2%float]))
    "BTC_USDT" 0 600 150 = Raise ValueError.
Proof.
  apply (return_candles_propagates_parse_error RefClock.utc_epoch
           (Fixtures.serve
              (Some [Fixtures.tick "1970-01-01T00:00:00" 1%float;
                     Fixtures.tick "1970-01-01 00:05:00" 2%float]))
           "BTC_USDT" 0 600 150
           [Fixtures.tick "1970-01-01T00:00:00" 1%float] []
           (Fixtures.tick "1970-01-01 00:05:00" 2%float) ValueError).
  - reflexivity.
  - repeat constructor. by exists 0.
  - reflexivity.
Defined.

(** ** Further properties of [get_volume_from_history] *)

Lemma str_split1_no_separator (sep : ascii) (s : string) :
  str_contains sep s = false -> str_split1 sep s = [s].
Proof.
  induction s as [|c s IH]; simpl; [done|].
  intros H. apply orb_false_iff in H as [Hc Hs].
  rewrite Hc. by rewrite (IH Hs).
Qed.

Lemma str_split1_first_separator (sep : ascii) (s rest : string) :
  str_contains sep s = false ->
  str_split1 sep (s ++ String sep rest) = [s; rest].
Proof.
  induction s as [|c s IH]; simpl.
  - intros _. by rewrite Ascii.eqb_refl.
  - intros H. apply orb_false_iff in H as [Hc Hs].
    rewrite Hc. by rewrite (IH Hs).
Qed.

(** X7: the fraction of a second is ignored: a timestamp is parsed up to its
    first ['.'], so a record stamped [s.fff] has the epoch of [s], and a
    timestamp without ['.'] is parsed as it is. *)
Theorem item_epoch_ignores_fraction (strptime_utc : string -> result Z)
    (s fraction : string) (quantity : float) :
  str_contains "." s = false ->
  item_epoch strptime_utc
    {| TimeStamp := s ++ String "." fraction; Quantity := quantity |}
  = strptime_utc s
  /\ item_epoch strptime_utc {| TimeStamp := s; Quantity := quantity |}
     = strptime_utc s.
Proof.
  intros Hs. unfold item_epoch. simpl.
  by rewrite str_split1_first_separator, str_split1_no_separator.
Qed.

(** A trade stamped with milliseconds. *)
Lemma item_epoch_ignores_fraction_witness :
  item_epoch RefClock.utc_epoch
    {| TimeStamp := "1970-01-01T01:15:00" ++ String "." "250";
       Quantity := 5%float |}
  = RefClock.utc_epoch "1970-01-01T01:15:00"
  /\ item_epoch RefClock.utc_epoch
       {| TimeStamp := "1970-01-01T01:15:00"; Quantity := 5%float |}
     = RefClock.utc_epoch "1970-01-01T01:15:00".
Proof.
  apply (item_epoch_ignores_fraction RefClock.utc_epoch "1970-01-01T01:15:00"
           "250" 5%float).
  reflexivity.
Defined.

(** The sum of two floats that are not negative is not negative. *)
Lemma SFadd_sign (x y : spec_float) :
  SFnegative x = false -> SFnegative y = false ->
  SFnegative (SFadd prec emax x y) = false.
Proof.
  intros Hx Hy.
  destruct x as [sx|sx| |sx mx ex], y as [sy|sy| |sy my ey];
    try (destruct sx; (discriminate Hx || (try destruct sy);
                       (discriminate Hy || reflexivity)));
    try (destruct sy; (discriminate Hy || reflexivity));
    try reflexivity.
  destruct sx; [discriminate Hx|]. destruct sy; [discriminate Hy|].
  unfold SFadd. apply binary_normalize_sign. simpl. lia.
Qed.

Lemma float_add_not_negative (x y : float) :
  (x <? 0)%float = false -> (y <? 0)%float = false ->
  (x + y <? 0)%float = false.
Proof.
  rewrite !ltb_spec, add_spec. apply SFadd_sign.
Qed.

Lemma volume_loop_not_negative (strptime_utc : string -> result Z)
    (epoch_candle_start : Z) (history : list TradeRecord) (v volume : float) :
  Forall (fun item => (Quantity item <? 0)%float = false) history ->
  (v <? 0)%float = false ->
  volume_loop strptime_utc epoch_candle_start history v = Ok volume ->
  (volume <? 0)%float = false.
Proof.
  intros Hall. revert v.
  induction Hall as [|item history Hq _ IH]; intros v Hv H.
  - simpl in H. by injection H as <-.
  - simpl in H. destruct (item_epoch strptime_utc item) as [epoch|e];
      simpl in H; [|done].
    destruct (epoch_candle_start <=? epoch).
    + eapply IH; [|exact H]. by apply float_add_not_negative.
    + by eapply IH.
Qed.

(** X8: when no record has a negative quantity the volume returned is not
    negative. *)
Theorem get_volume_from_history_not_negative
    (strptime_utc : string -> result Z) (epoch_now : Z)
    (history : list TradeRecord) (candle_size : Z) (volume : float) :
  Forall (fun item => (Quantity item <? 0)%float = false) history ->
  get_volume_from_history strptime_utc epoch_now history candle_size
    = Ok volume ->
  (volume <? 0)%float = false.
Proof.
  unfold get_volume_from_history. intros Hall H.
  exact (volume_loop_not_negative strptime_utc _ history 0%float volume Hall
           eq_refl H).
Qed.

(** The two trades of the volume example. *)
Lemma get_volume_from_history_not_negative_witness :
  (5 <? 0)%float = false.
Proof.
  apply (get_volume_from_history_not_negative RefClock.utc_epoch
           Fixtures.epoch_now [Fixtures.recent_trade; Fixtures.old_trade] 60
           5%float).
  - by repeat constructor.
  - reflexivity.
Defined.

(** ** Further properties of [get_buy_sell_all_amount] *)

(** X9: a buy reads the balance of the base symbol only and a sell that of
    the quote symbol only: two wallets that agree there give the same
    outcome, whatever else they hold. *)
Theorem get_buy_sell_all_amount_reads_one_balance (self : BittrexClient)
    (wallet1 wallet2 : gmap string float) (act : TradeState)
    (market : string) (rate : float) :
  (forall base quote,
     str_split pair_delimiter market = [base; quote] ->
     match act with
     | buy => wallet1 !! base = wallet2 !! base
     | sell => wallet1 !! quote = wallet2 !! quote
     | none => True
     end) ->
  get_buy_sell_all_amount self wallet1 act market rate
  = get_buy_sell_all_amount self wallet2 act market rate.
Proof.
  intros Hagree. unfold get_buy_sell_all_amount.
  destruct (decide (act = none)); [done|].
  destruct (rate =? 0)%float; [done|].
  destruct (str_split pair_delimiter market) as [|s1 [|s2 [|s3 rest]]];
    try done.
  specialize (Hagree s1 s2 eq_refl). unfold all_assets_amount.
  destruct act; [by rewrite Hagree| |done].
  rewrite Hagree. by destruct (wallet1 !! s1), (wallet2 !! s1).
Qed.

(** A second wallet that also holds the quote currency. *)
Lemma get_buy_sell_all_amount_reads_one_balance_witness :
  get_buy_sell_all_amount (Fixtures.client 1) Fixtures.wallet_one_btc buy
    "BTC-USDT" 2
  = get_buy_sell_all_amount (Fixtures.client 1)
      (<["USDT"%string := 3%float]> Fixtures.wallet_one_btc) buy "BTC-USDT" 2.
Proof.
  apply (get_buy_sell_all_amount_reads_one_balance (Fixtures.client 1)
           Fixtures.wallet_one_btc
           (<["USDT"%string := 3%float]> Fixtures.wallet_one_btc) buy
           "BTC-USDT" 2).
  intros base quote Hsplit. injection Hsplit as <- <-. reflexivity.
Defined.

(** With a fee of zero the deduction leaves a positive finite amount as it
    is. *)
Lemma float_zero_fee (a : float) :
  (0 <? a)%float = true -> (a <? infinity)%float = true ->
  (a <=? 0)%float = false /\ (a - 0 * a / 100)%float = a.
Proof.
  rewrite !ltb_spec, leb_spec. intros Hpos Hfin. split.
  - change (Prim2SF 0) with (S754_zero false) in *.
    destruct (Prim2SF a) as [s|s| |s m e]; try discriminate Hpos;
      destruct s; (discriminate Hpos || reflexivity).
  - apply Prim2SF_inj. rewrite sub_spec, div_spec, mul_spec.
    change (Prim2SF 0) with (S754_zero false) in *.
    change (Prim2SF infinity) with (S754_infinity false) in Hfin.
    change (Prim2SF 100) with (S754_finite false 7036874417766400 (-46)).
    destruct (Prim2SF a) as [s|s| |s m e]; try discriminate Hpos;
      destruct s; (discriminate Hpos || discriminate Hfin || reflexivity).
Qed.

(** X10: with [transaction_fee] 0 the call returns the pre-fee amount
    exactly, whenever that amount is positive and finite. *)
Theorem get_buy_sell_all_amount_zero_fee (self : BittrexClient)
    (wallet : gmap string float) (act : TradeState) (market : string)
    (rate : float) (symbol_1 symbol_2 : string) :
  transaction_fee self = 0%float ->
  act <> none -> (rate =? 0)%float = false ->
  str_split pair_delimiter market = [symbol_1; symbol_2] ->
  (0 <? all_assets_amount wallet act symbol_1 symbol_2 rate)%float = true ->
  (all_assets_amount wallet act symbol_1 symbol_2 rate <? infinity)%float
    = true ->
  get_buy_sell_all_amount self wallet act market rate
  = Ok (all_assets_amount wallet act symbol_1 symbol_2 rate).
Proof.
  intros Hfee Hact Hrate Hsplit Hpos Hfin. unfold get_buy_sell_all_amount.
  destruct (decide (act = none)); [done|]. rewrite Hrate, Hsplit.
  unfold deduct_fee. rewrite Hfee.
  destruct (float_zero_fee _ Hpos Hfin) as [-> ->]. done.
Qed.

(** Selling one unit without fee. *)
Lemma get_buy_sell_all_amount_zero_fee_witness :
  get_buy_sell_all_amount (Fixtures.client 0) Fixtures.wallet_one_btc sell
    "USDT-BTC" 2
  = Ok (all_assets_amount Fixtures.wallet_one_btc sell "USDT" "BTC" 2).
Proof.
  apply (get_buy_sell_all_amount_zero_fee (Fixtures.client 0)
           Fixtures.wallet_one_btc sell "USDT-BTC" 2 "USDT" "BTC").
  - reflexivity.
  - discriminate.
  - reflexivity.
  - reflexivity.
  - reflexivity.
  - reflexivity.
Defined.

Lemma str_replace_absent (old new : ascii) (s : string) :
  str_contains old s = false -> str_replace old new s = s.
Proof.
  induction s as [|c s IH]; simpl; [done|].
  intros H. apply orb_false_iff in H as [Hc Hs].
  rewrite Hc. by rewrite (IH Hs).
Qed.

Lemma str_replace_app (old new : ascii) (s1 s2 : string) :
  str_replace old new (s1 ++ s2)
  = (str_replace old new s1 ++ str_replace old new s2)%string.
Proof. induction s1 as [|c s1 IH]; simpl; [done|]. by rewrite IH. Qed.

(** After the translation no old character is left. *)
Lemma str_replace_removes (old new : ascii) (s : string) :
  old <> new -> str_contains old (str_replace old new s) = false.
Proof.
  intros Hne. induction s as [|c s IH]; simpl; [done|].
  rewrite IH, orb_false_r.
  destruct (Ascii.eqb_spec c old) as [->|Hc].
  - apply Ascii.eqb_neq. congruence.
  - by apply Ascii.eqb_neq.
Qed.

Lemma str_split_absent (sep : ascii) (s : string) :
  str_contains sep s = false -> str_split sep s = [s].
Proof.
  induction s as [|c s IH]; simpl; [done|].
  intros H. apply orb_false_iff in H as [Hc Hs].
  rewrite Hc. by rewrite (IH Hs).
Qed.

Lemma str_split_at_separator (sep : ascii) (s rest : string) :
  str_contains sep s = false ->
  str_split sep (s ++ String sep rest) = s :: str_split sep rest.
Proof.
  induction s as [|c s IH]; simpl.
  - intros _. by rewrite Ascii.eqb_refl.
  - intros H. apply orb_false_iff in H as [Hc Hs].
    rewrite Hc. by rewrite (IH Hs).
Qed.

(** X11: a pair in the internal form [BASE_QUOTE], with neither symbol
    holding ['_'] or ['-'], is translated by [life_trade] into a market that
    splits into exactly [(BASE, QUOTE)]: the all-in resolution of such a pair
    never raises. *)
Theorem internal_pair_resolves (self : BittrexClient)
    (wallet : gmap string float) (act : TradeState) (rate : float)
    (base quote : string) :
  str_contains "_" base = false -> str_contains "-" base = false ->
  str_contains "_" quote = false -> str_contains "-" quote = false ->
  str_split pair_delimiter
    (str_replace "_" pair_delimiter (base ++ String "_" quote))
  = [base; quote]
  /\ exists x,
       get_buy_sell_all_amount self wallet act
         (str_replace "_" pair_delimiter (base ++ String "_" quote)) rate
       = Ok x.
Proof.
  intros Hb1 Hb2 Hq1 Hq2.
  assert (str_split pair_delimiter
            (str_replace "_" pair_delimiter (base ++ String "_" quote))
          = [base; quote]) as Hsplit.
  { rewrite str_replace_app. simpl.
    rewrite !str_replace_absent by done.
    rewrite str_split_at_separator by done.
    by rewrite str_split_absent. }
  split; [done|]. unfold get_buy_sell_all_amount. rewrite Hsplit.
  destruct (decide (act = none)); [eauto|].
  destruct (rate =? 0)%float; eauto.
Qed.

(** The pair of the examples. *)
Lemma internal_pair_resolves_witness :
  str_split pair_delimiter
    (str_replace "_" pair_delimiter ("BTC" ++ String "_" "USDT"))
  = ["BTC"%string; "USDT"%string]
  /\ exists x,
       get_buy_sell_all_amount (Fixtures.client 1) Fixtures.wallet_one_btc buy
         (str_replace "_" pair_delimiter ("BTC" ++ String "_" "USDT")) 2
       = Ok x.
Proof.
  apply (internal_pair_resolves (Fixtures.client 1) Fixtures.wallet_one_btc
           buy 2 "BTC" "USDT"); reflexivity.
Defined.

(** ** [get_balances] and [get_pairs] *)

Lemma balances_dict_snoc (balances : list (string * float))
    (item : string * float) :
  balances_dict (balances ++ [item])
  = <[item.1 := item.2]> (balances_dict balances).
Proof. unfold balances_dict. by rewrite fold_left_app. Qed.

(** X12: the wallet built from the balances holds, for each currency, the
    [Available] of the last item returned for it, zero amounts included, and
    nothing for a currency the endpoint did not return. *)
Theorem balances_dict_lookup (balances : list (string * float))
    (currency : string) :
  balances_dict balances !! currency
  = last (filter (fun item : string * float => item.1 = currency) balances).*2.
Proof.
  induction balances as [|item balances IH] using rev_ind; [done|].
  rewrite balances_dict_snoc, filter_app, fmap_app.
  rewrite filter_cons, filter_nil.
  destruct (decide (item.1 = currency)) as [Heq|Hne].
  - rewrite Heq, lookup_insert_eq. simpl. by rewrite last_snoc.
  - rewrite lookup_insert_ne by done. simpl. by rewrite app_nil_r.
Qed.

(** X13: [get_pairs] returns the [MarketName] of every market summary, one
    per summary and in the endpoint's order, in the exchange's own form. *)
Theorem get_pairs_names (res : list MarketSummary) :
  get_pairs res = MarketName <$> res.
Proof.
  unfold get_pairs.
  assert (forall pairs,
            get_pairs_loop res pairs = pairs ++ (MarketName <$> res)) as ->;
    [|done].
  induction res as [|market res IH]; intros pairs; simpl.
  - by rewrite app_nil_r.
  - by rewrite IH, <- app_assoc.
Qed.

(** ** Further properties of [life_trade] *)

Section LifeTradeMore.

Variable self : BittrexClient.
Variable bittrex : Bittrex.

Lemma same_but_amount_refl (o : TradeAction) : same_but_amount o o.
Proof. by repeat split. Qed.

Lemma same_but_amount_trans (o1 o2 o3 : TradeAction) :
  same_but_amount o1 o2 -> same_but_amount o2 o3 -> same_but_amount o1 o3.
Proof.
  intros (Hp & Ha & Hr & Hb & Hm) (Hp' & Ha' & Hr' & Hb' & Hm').
  repeat split; try congruence.
  intros Hno. rewrite Hm', Hm; [done..|congruence].
Qed.

(** The all-in resolution assigns [amount], of the loop variable only, and
    only when [buy_sell_all] is set. *)
Lemma resolve_object (st : State) (a : loc) (st1 : State) (r : option exn) :
  resolve self bittrex st a = (st1, r) ->
  same_but_amount (objs st a) (objs st1 a).
Proof.
  unfold resolve. intros H.
  repeat case_match; simplify_eq/=; try apply same_but_amount_refl.
  rewrite fn_lookup_insert. repeat split; simpl; congruence.
Qed.

(** The three ways one pass of the loop body can go: the resolution raises;
    the action is a no-op and is removed; an order is placed. *)
Lemma life_trade_body_cases (st : State) (a : loc) (st' : State)
    (r : option exn) :
  life_trade_body self bittrex st a = (st', r) ->
  exists st1 r1,
    resolve self bittrex st a = (st1, r1) /\ objs st' = objs st1 /\
    ((r1 <> None /\ r = r1 /\ st' = st1)
     \/ (r1 = None /\
         (action (objs st1 a) = none \/
          (amount (objs st1 a) =? 0)%float = true) /\
         trace st' = trace st1 /\
         open_orders st' = open_orders st1 /\
         ((list_remove a (actions st1) = Ok (actions st') /\ r = None)
          \/ (exists e, list_remove a (actions st1) = Raise e /\
                        r = Some e /\ actions st' = actions st1)))
     \/ (r1 = None /\ r = None /\
         action (objs st1 a) <> none /\
         (amount (objs st1 a) =? 0)%float = false /\
         actions st' = actions st1 /\
         exists ev,
           order_event bittrex st1 a = Some ev /\
           trace st' = trace st1 ++ [(a, ev)])).
Proof.
  unfold life_trade_body. intros H.
  destruct (resolve self bittrex st a) as [st1 r1] eqn:Hres.
  exists st1, r1. split; [done|].
  assert (forall st2 r2, remove_action st1 a = (st2, r2) ->
            objs st2 = objs st1 /\ trace st2 = trace st1 /\
            open_orders st2 = open_orders st1 /\
            ((list_remove a (actions st1) = Ok (actions st2) /\ r2 = None)
             \/ (exists e, list_remove a (actions st1) = Raise e /\
                           r2 = Some e /\ actions st2 = actions st1))) as Hrm.
  { unfold remove_action. intros st2 r2 H2.
    destruct (list_remove a (actions st1)) as [l|e]; simplify_eq/=.
    - repeat split. by left.
    - repeat split. right. by exists e. }
  destruct r1 as [e|].
  { simplify_eq. split; [done|]. left. done. }
  destruct (decide (action (objs st1 a) = none)) as [Hnone|Hact].
  { destruct (Hrm _ _ H) as (Ho & Ht & Hoo & Hl).
    split; [done|]. right; left. repeat split; try done. by left. }
  destruct (amount (objs st1 a) =? 0)%float eqn:Hamt.
  { destruct (Hrm _ _ H) as (Ho & Ht & Hoo & Hl).
    split; [done|]. right; left. repeat split; try done. by right. }
  unfold submit in H. unfold order_event.
  destruct (action (objs st1 a)); [| |done].
  - destruct (success _); simplify_eq/=; (split; [done|]); right; right;
      repeat split; try done; by eexists.
  - destruct (success _); simplify_eq/=; (split; [done|]); right; right;
      repeat split; try done; by eexists.
Qed.

(** An order carries the amount and the translated pair of its action. *)
Lemma order_event_well_formed (st1 : State) (a : loc) (ev : Event) :
  order_event bittrex st1 a = Some ev ->
  (amount (objs st1 a) =? 0)%float = false ->
  is_order ev = true /\ order_well_formed ev.
Proof.
  unfold order_event. intros H Hamt.
  destruct (action (objs st1 a)); simplify_eq/=; (split; [done|]);
    (split; [done|]); by apply str_replace_removes.
Qed.

(** A property of the states that is kept by every pass of the loop body is
    kept by the loop, which always ends. *)
Lemma life_trade_loop_keeps (R : State -> State -> Prop) :
  (forall st, R st st) ->
  (forall st1 st2 st3, R st1 st2 -> R st2 st3 -> R st1 st3) ->
  (forall st a st' r,
     life_trade_body self bittrex st a = (st', r) -> R st st') ->
  forall fuel i st,
    (length (actions st) <= fuel + i)%nat ->
    exists st' r,
      life_trade_loop self bittrex fuel i st = Some (st', r) /\ R st st'.
Proof.
  intros Hrefl Htrans Hbody.
  induction fuel as [|fuel IH]; intros i st Hlen.
  - simpl. rewrite lookup_ge_None_2 by lia. by exists st, None.
  - simpl. destruct (actions st !! i) as [a|] eqn:Ha; [|by exists st, None].
    destruct (life_trade_body self bittrex st a) as [st1 r1] eqn:Hb.
    pose proof (life_trade_body_length _ _ _ _ _ _ Hb) as Hlen1.
    destruct r1 as [e|].
    + exists st1, (Some e). split; [done|]. by eapply Hbody.
    + destruct (IH (S i) st1 ltac:(lia)) as (st' & r & Hloop & HR).
      exists st', r. split; [done|].
      eapply Htrans; [by eapply Hbody|done].
Qed.

Lemma list_remove_sublist {A} `{EqDecision A} (x : A) (l l' : list A) :
  list_remove x l = Ok l' -> l' `sublist_of` l.
Proof.
  revert l'. induction l as [|y l IH]; intros l' H; simpl in H; [done|].
  destruct (decide (x = y)).
  - injection H as <-. by apply sublist_cons.
  - destruct (list_remove x l) as [l0|e]; simpl in H; [|done].
    injection H as <-. apply sublist_skip. by apply IH.
Qed.

End LifeTradeMore.

(** X14: [life_trade] only ever removes actions: the list it leaves is a
    sublist of the list it was given, with the remaining actions in their
    original order. *)
Theorem life_trade_returns_sublist (self : BittrexClient) (bittrex : Bittrex)
    (st : State) :
  exists st' r,
    life_trade self bittrex st = Some (st', r) /\
    actions st' `sublist_of` actions st.
Proof.
  apply (life_trade_loop_keeps self bittrex
           (fun st st' => actions st' `sublist_of` actions st)).
  - done.
  - intros st1 st2 st3 H12 H23. by etrans.
  - intros st0 a st' r Hb.
    destruct (life_trade_body_frame _ _ _ _ _ _ Hb) as ([->|Hrm] & _); [done|].
    by eapply list_remove_sublist.
  - lia.
Qed.

(** X15: [life_trade] changes nothing in an action object but [amount], and
    that only for actions with [buy_sell_all] set: [pair], [action], [rate]
    and [buy_sell_all] of every object are as before. *)
Theorem life_trade_changes_only_amounts (self : BittrexClient)
    (bittrex : Bittrex) (st : State) :
  exists st' r,
    life_trade self bittrex st = Some (st', r) /\
    forall l, same_but_amount (objs st l) (objs st' l).
Proof.
  apply (life_trade_loop_keeps self bittrex
           (fun st st' => forall l, same_but_amount (objs st l) (objs st' l))).
  - intros st0 l. apply same_but_amount_refl.
  - intros st1 st2 st3 H12 H23 l. by eapply same_but_amount_trans.
  - intros st0 a st' r Hb l.
    destruct (life_trade_body_cases _ _ _ _ _ _ Hb) as (st1 & r1 & Hres & -> & _).
    destruct (decide (l = a)) as [->|Hne].
    + by eapply resolve_object.
    + destruct (resolve_frame _ _ _ _ _ _ Hres) as (_ & _ & Hobj & _).
      rewrite Hobj by done. apply same_but_amount_refl.
  - lia.
Qed.

(** X16: every order that [life_trade] places has a quantity that is not
    equal to 0 and a market name without ['_']. *)
Theorem life_trade_orders_well_formed (self : BittrexClient)
    (bittrex : Bittrex) (st : State) :
  exists st' r,
    life_trade self bittrex st = Some (st', r) /\
    exists evs,
      trace st' = trace st ++ evs /\
      Forall (fun ev : loc * Event => order_well_formed ev.2) evs.
Proof.
  apply (life_trade_loop_keeps self bittrex
           (fun st st' => exists evs,
              trace st' = trace st ++ evs /\
              Forall (fun ev : loc * Event => order_well_formed ev.2) evs)).
  - intros st0. exists []. by rewrite app_nil_r.
  - intros st1 st2 st3 (evs1 & H1 & F1) (evs2 & H2 & F2).
    exists (evs1 ++ evs2). rewrite H2, H1, app_assoc. split; [done|].
    by apply Forall_app.
  - intros st0 a st' r Hb.
    destruct (life_trade_body_cases _ _ _ _ _ _ Hb)
      as (st1 & r1 & Hres & _ & Hcases).
    destruct (resolve_frame _ _ _ _ _ _ Hres) as (_ & _ & _ & _ & Htr).
    destruct Hcases as [(_ & _ & ->)|[(_ & _ & Ht & _)|
                        (_ & _ & _ & Hamt & _ & ev & Hev & Ht)]].
    + eexists. split; [exact Htr|]. by repeat constructor.
    + eexists. rewrite Ht. split; [exact Htr|]. by repeat constructor.
    + destruct (order_event_well_formed _ _ _ _ Hev Hamt) as [_ Hwf].
      eexists. rewrite Ht, Htr, <- app_assoc. split; [done|].
      by repeat constructor.
  - lia.
Qed.

Section LifeTradeCalls.

Variable self : BittrexClient.
Variable bittrex : Bittrex.

(** Each pass makes one balance fetch and then at most one order call, both
    for the loop variable. *)
Lemma life_trade_body_events (st : State) (a : loc) (st' : State)
    (r : option exn) :
  life_trade_body self bittrex st a = (st', r) ->
  exists rest,
    trace st'
    = trace st
      ++ (a, GetBalances (get_balances_result bittrex (history st))) :: rest /\
    (rest = [] \/ exists ev, rest = [(a, ev)] /\ is_order ev = true).
Proof.
  intros Hb.
  destruct (life_trade_body_cases _ _ _ _ _ _ Hb)
    as (st1 & r1 & Hres & _ & Hcases).
  destruct (resolve_frame _ _ _ _ _ _ Hres) as (_ & _ & _ & _ & Htr).
  destruct Hcases as [(_ & _ & ->)|[(_ & _ & Ht & _)|
                      (_ & _ & _ & Hamt & _ & ev & Hev & Ht)]].
  - exists []. split; [done|by left].
  - exists []. rewrite Ht. split; [done|by left].
  - destruct (order_event_well_formed _ _ _ _ Hev Hamt) as [Hord _].
    exists [(a, ev)]. rewrite Ht, Htr, <- app_assoc. split; [done|].
    right. by exists ev.
Qed.

Lemma omap_tags_after_fetch (a : loc) (balances : list (string * float))
    (rest : list (loc * Event)) :
  omap fetch_tag ((a, GetBalances balances) :: rest)
  = a :: omap fetch_tag rest
  /\ omap order_tag ((a, GetBalances balances) :: rest) = omap order_tag rest.
Proof. done. Qed.

Lemma life_trade_loop_calls (fuel i : nat) (st : State) :
  (length (actions st) <= fuel + i)%nat ->
  exists st' r evs,
    life_trade_loop self bittrex fuel i st = Some (st', r) /\
    trace st' = trace st ++ evs /\
    (length (omap fetch_tag evs) <= length (actions st) - i)%nat /\
    (length (omap order_tag evs) <= length (omap fetch_tag evs))%nat.
Proof.
  revert i st. induction fuel as [|fuel IH]; intros i st Hlen.
  - simpl. rewrite lookup_ge_None_2 by lia.
    exists st, None, []. rewrite app_nil_r. simpl. repeat split; lia.
  - simpl. destruct (actions st !! i) as [a|] eqn:Ha.
    + apply lookup_lt_Some in Ha as Hi.
      destruct (life_trade_body self bittrex st a) as [st1 r1] eqn:Hb.
      pose proof (life_trade_body_length _ _ _ _ _ _ Hb) as Hlen1.
      destruct (life_trade_body_events _ _ _ _ Hb) as (rest & Htr1 & Hrest).
      assert ((length (omap fetch_tag rest) = 0)%nat /\
              (length (omap order_tag rest) <= 1)%nat) as [Hf Ho].
      { destruct Hrest as [->|(ev & -> & Hord)]; [simpl; lia|].
        unfold fetch_tag, order_tag. simpl. rewrite Hord.
        destruct ev; simpl in *; try done; lia. }
      destruct r1 as [e|].
      * eexists st1, (Some e), _. split; [done|]. split; [exact Htr1|].
        destruct (omap_tags_after_fetch a
                    (get_balances_result bittrex (history st)) rest)
          as [-> ->].
        simpl. lia.
      * destruct (IH (S i) st1 ltac:(lia))
          as (st' & r & evs & Hloop & Htr & Hfetch & Horder).
        exists st', r,
          (((a, GetBalances (get_balances_result bittrex (history st)))
            :: rest) ++ evs).
        split; [done|]. split; [by rewrite Htr, Htr1, <- app_assoc|].
        rewrite !omap_app, !length_app.
        destruct (omap_tags_after_fetch a
                    (get_balances_result bittrex (history st)) rest)
          as [-> ->].
        simpl. lia.
    + exists st, None, []. rewrite app_nil_r. simpl. repeat split; lia.
Qed.

(** An action that is no all-in, has a buy or a sell and a non-zero amount
    goes through the pass unchanged and gets exactly one order call. *)
Lemma life_trade_body_plain (st : State) (a : loc) :
  buy_sell_all (objs st a) = false ->
  action (objs st a) <> none ->
  (amount (objs st a) =? 0)%float = false ->
  exists st' ev,
    life_trade_body self bittrex st a = (st', None) /\
    actions st' = actions st /\ objs st' = objs st /\
    is_order ev = true /\
    trace st'
    = trace st
      ++ [(a, GetBalances (get_balances_result bittrex (history st)));
          (a, ev)].
Proof.
  intros Hall Hact Hamt. unfold life_trade_body, resolve. simpl.
  rewrite Hall. simpl.
  destruct (decide (action (objs st a) = none)); [done|]. rewrite Hamt.
  unfold submit. simpl.
  destruct (action (objs st a)); [| |done];
    destruct (success _); eexists _, _; simpl;
      (split; [reflexivity|]); simpl; rewrite <- ?app_assoc;
        repeat split; reflexivity.
Qed.

Lemma omap_tags_fetch_order (a : loc) (balances : list (string * float))
    (ev : Event) :
  is_order ev = true ->
  omap fetch_tag [(a, GetBalances balances); (a, ev)] = [a]
  /\ omap order_tag [(a, GetBalances balances); (a, ev)] = [a].
Proof. by destruct ev. Qed.

Lemma life_trade_loop_plain (fuel i : nat) (st : State) :
  Forall (fun a => buy_sell_all (objs st a) = false /\
                   action (objs st a) <> none /\
                   (amount (objs st a) =? 0)%float = false) (actions st) ->
  (length (actions st) <= fuel + i)%nat ->
  exists st' evs,
    life_trade_loop self bittrex fuel i st = Some (st', None) /\
    actions st' = actions st /\ objs st' = objs st /\
    trace st' = trace st ++ evs /\
    omap fetch_tag evs = drop i (actions st) /\
    omap order_tag evs = drop i (actions st).
Proof.
  revert i st. induction fuel as [|fuel IH]; intros i st Hgood Hlen.
  - simpl. rewrite lookup_ge_None_2 by lia.
    exists st, []. rewrite app_nil_r, drop_ge by lia. done.
  - simpl. destruct (actions st !! i) as [a|] eqn:Ha.
    + rewrite Forall_forall in Hgood.
      destruct (Hgood a) as (Hall & Hact & Hamt);
        [by eapply list_elem_of_lookup_2|].
      destruct (life_trade_body_plain st a Hall Hact Hamt)
        as (st1 & ev & -> & Hl1 & Ho1 & Hord & Htr1).
      destruct (IH (S i) st1) as (st' & evs & Hloop & Hl & Ho & Htr & Hf & Hor).
      { rewrite Hl1, Ho1. by apply Forall_forall. }
      { rewrite Hl1. lia. }
      exists st',
        ([(a, GetBalances (get_balances_result bittrex (history st)));
          (a, ev)] ++ evs).
      split; [done|]. rewrite Hl, Ho, Hl1, Ho1.
      split; [done|]. split; [done|]. split.
      { by rewrite Htr, Htr1, <- app_assoc. }
      rewrite Hl1 in Hf, Hor. rewrite (drop_S _ _ _ Ha), !omap_app.
      destruct (omap_tags_fetch_order a
                  (get_balances_result bittrex (history st)) ev Hord)
        as [-> ->].
      by rewrite Hf, Hor.
    + apply lookup_ge_None_1 in Ha.
      exists st, []. rewrite app_nil_r, drop_ge by lia. done.
Qed.

End LifeTradeCalls.

(** X17: [life_trade] fetches the balances at most once per element of the
    list it was given, and places at most one order per balance fetch: a run
    over [n] actions makes at most [2 n] calls to the endpoint. *)
Theorem life_trade_calls_bounded (self : BittrexClient) (bittrex : Bittrex)
    (st : State) :
  exists st' r evs,
    life_trade self bittrex st = Some (st', r) /\
    trace st' = trace st ++ evs /\
    (length (omap fetch_tag evs) <= length (actions st))%nat /\
    (length (omap order_tag evs) <= length (omap fetch_tag evs))%nat.
Proof.
  destruct (life_trade_loop_calls self bittrex (length (actions st)) 0 st)
    as (st' & r & evs & Hrun & Htr & Hf & Ho); [lia|].
  exists st', r, evs. repeat split; try done. lia.
Qed.

(** X18: when no action of the list is an all-in, has action [none] or has
    amount 0, [life_trade] returns the list as it was, leaves every object
    untouched, and makes for each action, in list order, exactly one balance
    fetch followed by one order call: nothing is removed or skipped. *)
Theorem life_trade_processes_plain_actions_in_order (self : BittrexClient)
    (bittrex : Bittrex) (st : State) :
  Forall (fun a => buy_sell_all (objs st a) = false /\
                   action (objs st a) <> none /\
                   (amount (objs st a) =? 0)%float = false) (actions st) ->
  exists st' evs,
    life_trade self bittrex st = Some (st', None) /\
    actions st' = actions st /\ objs st' = objs st /\
    trace st' = trace st ++ evs /\
    omap fetch_tag evs = actions st /\
    omap order_tag evs = actions st.
Proof.
  intros Hgood.
  destruct (life_trade_loop_plain self bittrex (length (actions st)) 0 st Hgood)
    as (st' & evs & H); [lia|].
  by exists st', evs.
Qed.

(** A buy followed by a sell. *)
Lemma life_trade_processes_plain_actions_in_order_witness :
  exists st' evs,
    life_trade (Fixtures.client 1) Fixtures.endpoint
      (Fixtures.state_of Fixtures.objects [1%nat; 2%nat]) = Some (st', None) /\
    actions st' = [1%nat; 2%nat] /\ objs st' = Fixtures.objects /\
    trace st' = [] ++ evs /\
    omap fetch_tag evs = [1%nat; 2%nat] /\
    omap order_tag evs = [1%nat; 2%nat].
Proof.
  apply (life_trade_processes_plain_actions_in_order (Fixtures.client 1)
           Fixtures.endpoint
           (Fixtures.state_of Fixtures.objects [1%nat; 2%nat])).
  repeat constructor; discriminate.
Defined.

(** X19: an all-in action whose translated pair does not split into exactly
    two symbols aborts the batch: the pass raises [ValueError] right after
    its balance fetch, before any removal or order, and the actions after it
    are not processed. *)
Theorem life_trade_aborts_on_malformed_pair (self : BittrexClient)
    (bittrex : Bittrex) (fuel i : nat) (st : State) (a : loc) :
  actions st !! i = Some a ->
  buy_sell_all (objs st a) = true ->
  action (objs st a) <> none ->
  (rate (objs st a) =? 0)%float = false ->
  length (str_split pair_delimiter
            (str_replace "_" pair_delimiter (pair (objs st a)))) <> 2%nat ->
  life_trade_loop self bittrex (S fuel) i st
  = Some (record_event st a
            (GetBalances (get_balances_result bittrex (history st))),
          Some ValueError).
Proof.
  intros Ha Hall Hact Hrate Hlen. simpl. rewrite Ha.
  unfold life_trade_body, resolve. simpl. rewrite Hall.
  unfold get_buy_sell_all_amount.
  destruct (decide (action (objs st a) = none)); [done|]. rewrite Hrate.
  destruct (str_split pair_delimiter _) as [|s1 [|s2 [|s3 rest]]];
    simpl in Hlen; done.
Qed.

(** An all-in buy on a pair with two underscores, followed by a sell. *)
Lemma life_trade_aborts_on_malformed_pair_witness :
  life_trade_loop (Fixtures.client 1) Fixtures.endpoint 2 0
    (Fixtures.state_of
       (fun l => match l with
                 | O => {| pair := "BTC_USDT_X"; action := buy;
                           amount := 1%float; rate := 2%float;
                           buy_sell_all := true |}
                 | _ => Fixtures.sell_action
                 end) [0%nat; 1%nat])
  = Some (record_event
            (Fixtures.state_of
               (fun l => match l with
                         | O => {| pair := "BTC_USDT_X"; action := buy;
                                   amount := 1%float; rate := 2%float;
                                   buy_sell_all := true |}
                         | _ => Fixtures.sell_action
                         end) [0%nat; 1%nat]) 0%nat
            (GetBalances
               (get_balances_result Fixtures.endpoint
                  (history
                     (Fixtures.state_of
                        (fun l => match l with
                                  | O => {| pair := "BTC_USDT_X";
                                            action := buy; amount := 1%float;
                                            rate := 2%float;
                                            buy_sell_all := true |}
                                  | _ => Fixtures.sell_action
                                  end) [0%nat; 1%nat])))),
          Some ValueError).
Proof.
  apply (life_trade_aborts_on_malformed_pair (Fixtures.client 1)
           Fixtures.endpoint 1 0).
  - reflexivity.
  - reflexivity.
  - discriminate.
  - reflexivity.
  - simpl. discriminate.
Defined.
